(** * ISE endpoint export: the interactive session engine

    A shallow embedding of [ise-export.py] and [ise-export-test.py]:
    the prompt matcher [wait_for_prompt] (the same text in both
    scripts) and the two [main] procedures that drive the remote menu.

    Modelling conventions.
    - Python [bytes] and [str] are both byte strings ([string]); a
      [str] is held as its UTF-8 encoding, so that [+] is [+:+] and
      [in] is the substring test [str_in].  [decode_utf8] is the
      identity on well-formed UTF-8 and raises otherwise.
    - [time.time()] is a clock in milliseconds.  Only [time.sleep]
      advances it, by exactly the requested interval.
    - The file system, the password database and the remote services
      are part of [Env]: the environment files that load ([dotenv]),
      the paths at which loading raises ([unreadable]), the files on
      the share ([files]), the home directories ([home], [passwd]).
      Paths are strings, written as [pathlib] and [os.path] write them.
    - The channel holds the bytes already buffered ([inbuf]); the bytes
      that arrive while the program sleeps are given by [arrivals], one
      entry per call of [time.sleep].
    - Every call into the outside world appends an event to [trace].
      [EvExpect] and [EvResult] are ghost events marking entry to and
      return from [wait_for_prompt]. *)

From Stdlib Require Import ZArith Ascii String List Lia Bool.
From stdpp Require Import base gmap strings list.

Local Open Scope Z_scope.

(** ** Byte strings *)

Module Str.

Definition byte (c : ascii) : Z := Z.of_N (N_of_ascii c).

Definition in_range (lo hi : Z) (c : ascii) : bool :=
  (lo <=? byte c) && (byte c <=? hi).

Definition of_bytes (l : list nat) : string :=
  fold_right (fun n s => String (ascii_of_nat n) s) EmptyString l.

Fixpoint take (n : nat) (s : string) : string :=
  match n, s with
  | S n', String c s' => String c (take n' s')
  | _, _ => EmptyString
  end.

Fixpoint drop (n : nat) (s : string) : string :=
  match n, s with
  | S n', String _ s' => drop n' s'
  | _, _ => s
  end.

Fixpoint rev_onto (s acc : string) : string :=
  match s with
  | EmptyString => acc
  | String c s' => rev_onto s' (String c acc)
  end.

Definition rev (s : string) : string := rev_onto s EmptyString.

Definition is_empty (s : string) : bool :=
  match s with EmptyString => true | _ => false end.

(** [concat] of a list of chunks. *)
Definition cat (l : list string) : string :=
  fold_right String.append EmptyString l.

(** Python's [needle in hay]. *)
Fixpoint str_in (needle hay : string) : bool :=
  String.prefix needle hay ||
  match hay with
  | EmptyString => false
  | String _ hay' => str_in needle hay'
  end.

(** *** UTF-8 well-formedness (the strict decoder of [bytes.decode]) *)

Definition is_cont (c : ascii) : bool := in_range 128 191 c.

Definition second_of_three (c0 c1 : ascii) : bool :=
  if byte c0 =? 224 then in_range 160 191 c1
  else if byte c0 =? 237 then in_range 128 159 c1
  else is_cont c1.

Definition second_of_four (c0 c1 : ascii) : bool :=
  if byte c0 =? 240 then in_range 144 191 c1
  else if byte c0 =? 244 then in_range 128 143 c1
  else is_cont c1.

Fixpoint utf8_valid (s : string) : bool :=
  match s with
  | EmptyString => true
  | String c0 s1 =>
    if byte c0 <? 128 then utf8_valid s1
    else if in_range 194 223 c0 then
      match s1 with
      | String c1 s2 => is_cont c1 && utf8_valid s2
      | _ => false
      end
    else if in_range 224 239 c0 then
      match s1 with
      | String c1 (String c2 s3) =>
        second_of_three c0 c1 && is_cont c2 && utf8_valid s3
      | _ => false
      end
    else if in_range 240 244 c0 then
      match s1 with
      | String c1 (String c2 (String c3 s4)) =>
        second_of_four c0 c1 && is_cont c2 && is_cont c3 && utf8_valid s4
      | _ => false
      end
    else false
  end.

(** *** [str.strip()]: the code points for which [str.isspace()] holds,
    as they appear in UTF-8 *)

Definition space1 (c : ascii) : bool :=
  in_range 9 13 c || in_range 28 32 c.

(** U+0085 and U+00A0. *)
Definition space2 (c0 c1 : ascii) : bool :=
  (byte c0 =? 194) && ((byte c1 =? 133) || (byte c1 =? 160)).

(** U+1680, U+2000..U+200A, U+2028, U+2029, U+202F, U+205F, U+3000. *)
Definition space3 (c0 c1 c2 : ascii) : bool :=
  ((byte c0 =? 225) && (byte c1 =? 154) && (byte c2 =? 128))
  || ((byte c0 =? 226) && (byte c1 =? 128)
      && (in_range 128 138 c2 || in_range 168 169 c2 || (byte c2 =? 175)))
  || ((byte c0 =? 226) && (byte c1 =? 129) && (byte c2 =? 159))
  || ((byte c0 =? 227) && (byte c1 =? 128) && (byte c2 =? 128)).

(** Drop leading white space; with [mirror] the string is read back to
    front, so the bytes of a code point come in reverse order. *)
Fixpoint lstrip_gen (mirror : bool) (s : string) : string :=
  match s with
  | String c0 s1 =>
    if space1 c0 then lstrip_gen mirror s1
    else
      match s1 with
      | String c1 s2 =>
        if (if mirror then space2 c1 c0 else space2 c0 c1)
        then lstrip_gen mirror s2
        else
          match s2 with
          | String c2 s3 =>
            if (if mirror then space3 c2 c1 c0 else space3 c0 c1 c2)
            then lstrip_gen mirror s3
            else s
          | _ => s
          end
      | _ => s
      end
  | _ => s
  end.

Definition strip (s : string) : string :=
  rev (lstrip_gen true (rev (lstrip_gen false s))).

End Str.

Import Str.

(** ** Exceptions, events and the state of the outside world *)

Inductive exn : Type :=
| SystemExit (code : Z)           (* raised by [sys.exit]; not an [Exception] *)
| SSHException (msg : string)     (* [paramiko.SSHException] *)
| NameError (name : string)
| UnicodeDecodeError
| OtherException (msg : string).  (* any other subclass of [Exception] *)

Inductive level : Type := INFO | ERROR.

Inductive event : Type :=
| EvLog (lv : level) (msg : string)          (* [logging.info] / [logging.error] *)
| EvConnect (host user key : string)         (* [ssh.connect] *)
| EvInvokeShell                              (* [ssh.invoke_shell] *)
| EvRecv (data : string)                     (* [channel.recv] returned [data] *)
| EvSleep (ms : Z)                           (* [time.sleep] *)
| EvSend (data : string)                     (* [channel.send] *)
| EvExpect (prompt : string)                 (* ghost: [wait_for_prompt] entered *)
| EvResult (matched : bool)                  (* ghost: [wait_for_prompt] returned *)
| EvCloseChannel                             (* [channel.close] *)
| EvCloseClient                              (* [ssh.close] *)
| EvUpload (file bucket object : string)     (* [s3_client.upload_file] *)
| EvSystem (cmd : string).                   (* [os.system] *)

Record World : Type := mkWorld {
  clock : Z;
  inbuf : string;
  arrivals : list string;
  environ : gmap string string;
  trace : list event
}.

Definition emit (e : event) (w : World) : World :=
  mkWorld (clock w) (inbuf w) (arrivals w) (environ w) (trace w ++ [e]).

(** ** The monad: state, exceptions, and calls that never return *)

Inductive outcome (A : Type) : Type :=
| Return (a : A)
| Raise (e : exn)
| Hang.
Arguments Return {A} a.
Arguments Raise {A} e.
Arguments Hang {A}.

Definition M (A : Type) : Type := World -> outcome A * World.

Definition ret {A} (a : A) : M A := fun w => (Return a, w).

Definition raise {A} (e : exn) : M A := fun w => (Raise e, w).

Definition hang {A} : M A := fun w => (Hang, w).

Definition bind {A B} (m : M A) (k : A -> M B) : M B :=
  fun w =>
    match m w with
    | (Return a, w') => k a w'
    | (Raise e, w') => (Raise e, w')
    | (Hang, w') => (Hang, w')
    end.

Declare Scope py_scope.
Delimit Scope py_scope with py.
Notation "x <- m ;; k" := (bind m (fun x => k))
  (at level 100, m at next level, right associativity) : py_scope.
Notation "m ;; k" := (bind m (fun _ => k))
  (at level 100, right associativity) : py_scope.
Local Open Scope py_scope.

(** [try: body  except SSHException: h1  except Exception: h2].
    [SystemExit] derives from [BaseException] and passes through. *)
Definition try_except {A} (body : M A)
    (on_ssh : string -> M A) (on_exception : exn -> M A) : M A :=
  fun w =>
    match body w with
    | (Raise (SSHException msg), w') => on_ssh msg w'
    | (Raise (SystemExit code), w') => (Raise (SystemExit code), w')
    | (Raise e, w') => on_exception e w'
    | r => r
    end.

(** [str(e)] for the exceptions the scripts print.  For a
    [UnicodeDecodeError] this is the start of the text only: Python
    goes on with the byte that does not decode, its position in the
    chunk and the reason. *)
Definition str_of_exn (e : exn) : string :=
  match e with
  | SystemExit code => EmptyString
  | SSHException msg => msg
  | NameError name => "name '" +:+ name +:+ "' is not defined"
  | UnicodeDecodeError => "'utf-8' codec can't decode bytes"
  | OtherException msg => msg
  end.

(** ** Primitive operations *)

Definition time_time : M Z := fun w => (Return (clock w), w).

Definition time_sleep (ms : Z) : M unit := fun w =>
  (Return tt,
   mkWorld (clock w + ms)
           (inbuf w +:+ hd EmptyString (arrivals w))
           (tl (arrivals w))
           (environ w)
           (trace w ++ [EvSleep ms])).

Definition recv_ready : M bool := fun w =>
  (Return (negb (is_empty (inbuf w))), w).

(** [channel.recv(n)]: at most [n] of the buffered bytes; with nothing
    buffered the call blocks. *)
Definition recv (n : nat) : M string := fun w =>
  if is_empty (inbuf w) then (Hang, w)
  else
    let data := take n (inbuf w) in
    (Return data,
     mkWorld (clock w) (drop n (inbuf w)) (arrivals w) (environ w)
             (trace w ++ [EvRecv data])).

Definition decode_utf8 (raw : string) : M string :=
  if utf8_valid raw then ret raw else raise UnicodeDecodeError.

Definition do_event (e : event) : M unit := fun w => (Return tt, emit e w).

Definition logging_info (msg : string) : M unit := do_event (EvLog INFO msg).
Definition logging_error (msg : string) : M unit := do_event (EvLog ERROR msg).
Definition channel_send (data : string) : M unit := do_event (EvSend data).
Definition sys_exit {A} (code : Z) : M A := raise (SystemExit code).

(** ** [wait_for_prompt] (ise-export.py 136-148, ise-export-test.py 50-62) *)

(** The [while] loop.  [fuel] bounds the number of times the loop
    condition is evaluated; running out of it is [Hang]. *)
Fixpoint poll_loop (fuel : nat) (interval : Z) (prompt : string)
    (timeout start_time : Z) (buffer : string) : M bool :=
  match fuel with
  | O => hang
  | S fuel' =>
    now <- time_time ;;
    if now - start_time <? timeout then
      ready <- recv_ready ;;
      if ready then
        raw <- recv 1024 ;;
        chunk <- decode_utf8 raw ;;
        let buffer := buffer +:+ chunk in
        logging_info ("Received: " +:+ strip chunk) ;;
        if str_in prompt buffer then ret true
        else
          time_sleep interval ;;
          poll_loop fuel' interval prompt timeout start_time buffer
      else
        time_sleep interval ;;
        poll_loop fuel' interval prompt timeout start_time buffer
    else ret false
  end.

(** Enough fuel for every run with a positive interval: the condition
    is evaluated at most [timeout / interval + 2] times. *)
Definition poll_fuel (interval timeout : Z) : nat :=
  Z.to_nat (timeout / interval) + 2.

(** The function with the sleep interval as a parameter. *)
Definition wait_for_prompt_every (interval : Z) (prompt : string)
    (timeout : Z) : M bool :=
  do_event (EvExpect prompt) ;;
  start_time <- time_time ;;
  matched <- poll_loop (poll_fuel interval timeout) interval prompt
                       timeout start_time EmptyString ;;
  do_event (EvResult matched) ;;
  ret matched.

(** [time.sleep(0.1)]. *)
Definition SLEEP_MS : Z := 100.

(** [timeout=30]. *)
Definition DEFAULT_TIMEOUT_MS : Z := 30000.

Definition wait_for_prompt (prompt : string) (timeout : Z) : M bool :=
  wait_for_prompt_every SLEEP_MS prompt timeout.

(** ** What the two scripts share *)

(** The line terminator written as [\n] in the command literals. *)
Definition NL : string := String "010"%char EmptyString.

(** The double quote of the [curl] command line. *)
Definition DQUOTE : string := String "034"%char EmptyString.

(** Facts about the outside world that a run reads but does not change. *)
Inductive net_error : Type :=
| SshError (msg : string)         (* a [paramiko.SSHException] *)
| OtherError (msg : string).      (* any other [Exception], e.g. a socket error *)

Inductive aws_lookup : Type :=
| CredsFound
| CredsNone                       (* [get_credentials()] returned [None] *)
| CredsError (msg : string).      (* the lookup raised *)

Inductive upload_result : Type :=
| UploadOk
| UploadClientError (msg : string)   (* [botocore.exceptions.ClientError] *)
| UploadOtherError (msg : string).   (* any other exception of the SDK *)

Record Env : Type := mkEnv {
  argv : list string;                          (* [sys.argv] *)
  script_dir : string;                         (* [str(SCRIPT_DIR)] *)
  home : option string;                        (* the home directory when the module is loaded:
                                                  [HOME], or else the user's entry in the
                                                  password database, if there is one *)
  passwd : gmap string string;                 (* [pwd.getpwnam(name).pw_dir] *)
  today : string;                              (* [datetime.now().strftime('%d-%b-%Y')] *)
  dotenv : gmap string (gmap string string);   (* the env files that [load_dotenv] reads, with their bindings *)
  unreadable : gmap string string;             (* the other paths that exist: [load_dotenv]
                                                  raises there, with this text *)
  aws_credentials : aws_lookup;
  connect_result : option net_error;           (* [None]: [ssh.connect] succeeds *)
  shell_result : option net_error;             (* [None]: [ssh.invoke_shell] succeeds *)
  files : gset string;                         (* the paths for which [os.path.exists] holds *)
  s3_result : upload_result;
  system_status : Z                            (* what [os.system] returns *)
}.

Definition exn_of (e : net_error) : exn :=
  match e with
  | SshError msg => SSHException msg
  | OtherError msg => OtherException msg
  end.

(** Module-level names.  Only strings are ever formatted. *)
Inductive pyobj : Type :=
| PyStr (s : string)
| PyOther.                        (* a module, a function, a handler, a path *)

(** Name lookup in the module's globals; none of the names looked up
    here is a builtin. *)
Definition load_name (G : gmap string pyobj) (x : string) : M pyobj :=
  match G !! x with
  | Some v => ret v
  | None => raise (NameError x)
  end.

Definition format_obj (v : pyobj) : string :=
  match v with
  | PyStr s => s
  | PyOther => "<object>"
  end.

Definition load_str (G : gmap string pyobj) (x : string) : M string :=
  v <- load_name G x ;; ret (format_obj v).

(** [s.rstrip('/')]. *)
Fixpoint rstrip_slash (s : string) : string :=
  match s with
  | EmptyString => EmptyString
  | String c s' =>
    let r := rstrip_slash s' in
    if is_empty r && Ascii.eqb c "/" then EmptyString else String c r
  end.

(** A string cut before its first slash: [(s[:i], s[i:])] with
    [i = s.find('/')], or the length of [s] when it has no slash. *)
Fixpoint until_slash (s : string) : string * string :=
  match s with
  | EmptyString => (EmptyString, EmptyString)
  | String "/" _ => (EmptyString, s)
  | String c s' => let (name, rest) := until_slash s' in (String c name, rest)
  end.

(** [os.path.expanduser(path)] (posixpath): [userhome] is the home
    directory of the user who runs the script, from [HOME] or else
    from the password database, and [users] is that database.  A path
    that does not start with a tilde, or names a user or a home that is
    not known, is returned as it is. *)
Definition expand (userhome : option string) (users : gmap string string)
    (path : string) : string :=
  match path with
  | String "~" after =>
    let (name, rest) := until_slash after in
    match (if is_empty name then userhome else users !! name) with
    | None => path
    | Some dir =>
      let expanded := rstrip_slash dir +:+ rest in
      if is_empty expanded then "/" else expanded
    end
  | _ => path
  end.

(** [os.path.expanduser] when the module is loaded
    (ise-export-test.py 33). *)
Definition expanduser (env : Env) (path : string) : string :=
  expand (home env) (passwd env) path.

(** The home directory with the process environment [E]: [HOME] if
    it is set, as [load_dotenv] may have done. *)
Definition userhome_of (env : Env) (E : gmap string string) : option string :=
  match E !! "HOME" with
  | Some dir => Some dir
  | None => home env
  end.

(** [os.path.expanduser] inside [main] (ise-export.py 172). *)
Definition os_path_expanduser (env : Env) (path : string) : M string := fun w =>
  (Return (expand (userhome_of env (environ w)) (passwd env) path), w).

(** [os.path.basename]: what follows the last slash. *)
Fixpoint basename_from (s acc : string) : string :=
  match s with
  | EmptyString => acc
  | String "/" s' => basename_from s' s'
  | String _ s' => basename_from s' acc
  end.

Definition basename (path : string) : string := basename_from path path.

Fixpoint join (sep : string) (l : list string) : string :=
  match l with
  | [] => EmptyString
  | [x] => x
  | x :: l' => x +:+ sep +:+ join sep l'
  end.

(** *** Paths as [pathlib] writes them *)

(** What lies between the slashes of a path. *)
Fixpoint components (s cur : string) : list string :=
  match s with
  | EmptyString => [cur]
  | String "/" s' => cur :: components s' EmptyString
  | String c s' => components s' (cur +:+ String c EmptyString)
  end.

(** The root of a POSIX path: two leading slashes are kept, one or
    three and more are one. *)
Definition path_root (raw : string) : string :=
  match raw with
  | String "/" (String "/" (String "/" _)) => "/"
  | String "/" (String "/" _) => "//"
  | String "/" _ => "/"
  | _ => EmptyString
  end.

(** [str(PurePosixPath(raw))]: empty components and [.] are dropped,
    [..] is kept. *)
Definition path_str (raw : string) : string :=
  let parts :=
    List.filter (fun c => negb (is_empty c || String.eqb c "."))
                (components raw EmptyString) in
  let s := path_root raw +:+ join "/" parts in
  if is_empty s then "." else s.

Definition ends_with_slash (s : string) : bool :=
  match rev s with
  | String "/" _ => true
  | _ => false
  end.

(** [str(Path(dir) / name)] for a [name] that does not start with a
    slash. *)
Definition path_div (dir name : string) : string :=
  path_str (if is_empty dir || ends_with_slash dir
            then dir +:+ name
            else dir +:+ "/" +:+ name).

(** The file [load_environment] looks for (ise-export.py 54-57). *)
Definition env_file_of (env : Env) (env_name : option string) : string :=
  match env_name with
  | Some (String c name) => path_div (script_dir env) (".env." +:+ String c name)
  | _ => path_div (script_dir env) ".env"
  end.

(** [sys.argv[1] if len(sys.argv) > 1 else None] (ise-export.py 152). *)
Definition env_name_of (env : Env) : option string :=
  match argv env with
  | _ :: name :: _ => Some name
  | _ => None
  end.

Definition ssh_connect (env : Env) (host user key : string) : M unit :=
  do_event (EvConnect host user key) ;;
  match connect_result env with
  | None => ret tt
  | Some e => raise (exn_of e)
  end.

Definition invoke_shell (env : Env) : M unit :=
  do_event EvInvokeShell ;;
  match shell_result env with
  | None => ret tt
  | Some e => raise (exn_of e)
  end.

Definition path_exists (env : Env) (path : string) : M bool :=
  ret (bool_decide (path ∈ files env)).

(** The idiom
    [if not wait_for_prompt(channel, prompt): logging.error(msg); sys.exit(1)]. *)
Definition expect_or_exit (prompt msg : string) : M unit :=
  matched <- wait_for_prompt prompt DEFAULT_TIMEOUT_MS ;;
  if negb matched then logging_error msg ;; sys_exit 1
  else ret tt.

Definition PROMPT : string := "ise-ppan-cx/admin#".
Definition MENU : string := "Selection configuration option".
Definition STARTED : string := "Starting to generate All Endpoints report".
Definition COMPLETED : string := "Completed generating All Endpoints report".

(** The menu dialogue, the same text in both scripts
    (ise-export.py 180-216, ise-export-test.py 79-115); [G] is the
    script's module namespace, in which [CSV_FILE] is looked up. *)
Definition drive_menu (G : gmap string pyobj) : M unit :=
  expect_or_exit PROMPT "Timeout waiting for initial prompt" ;;
  logging_info "Generating export file" ;;
  channel_send ("application configure ise" +:+ NL) ;;
  expect_or_exit MENU "Timeout waiting for menu" ;;
  channel_send ("16" +:+ NL) ;;
  expect_or_exit STARTED "Timeout waiting for report start" ;;
  expect_or_exit COMPLETED "Timeout waiting for report completion" ;;
  channel_send ("0" +:+ NL) ;;
  expect_or_exit PROMPT "Timeout waiting for admin prompt" ;;
  logging_info "Copying file from ISE to NFS repository" ;;
  csv <- load_str G "CSV_FILE" ;;
  channel_send ("copy disk:/" +:+ csv +:+ " repository NFS" +:+ NL) ;;
  expect_or_exit PROMPT "Timeout waiting for copy completion".

Definition close_connection : M unit :=
  do_event EvCloseChannel ;;
  do_event EvCloseClient ;;
  logging_info "SSH connection closed".

(** The two handlers that end both [main]s. *)
Definition on_ssh_exception (msg : string) : M unit :=
  logging_error ("SSH error: " +:+ msg) ;; sys_exit 1.

Definition on_exception (e : exn) : M unit :=
  logging_error ("An error occurred: " +:+ str_of_exn e) ;; sys_exit 1.

(** The status with which the interpreter leaves when [main()] ends. *)
Definition exit_status (r : outcome unit) : option Z :=
  match r with
  | Return _ => Some 0
  | Raise (SystemExit code) => Some code
  | Raise _ => Some 1
  | Hang => None
  end.

(** ** ise-export.py *)

Module IseExport.

(** The names bound at module level when [main()] runs.  [CSV_FILE] is
    not among them. *)
Definition globals : gmap string pyobj :=
  list_to_map
    [ ("__author__", PyStr "Andre Klyuchka");
      ("__email__", PyStr "aklyuchk@cisco.com");
      ("__website__", PyStr "https://codeyo.net");
      ("__license__", PyStr "MIT - https://mit-license.org/");
      ("paramiko", PyOther); ("os", PyOther); ("sys", PyOther);
      ("logging", PyOther); ("datetime", PyOther); ("time", PyOther);
      ("boto3", PyOther); ("ClientError", PyOther); ("Path", PyOther);
      ("load_dotenv", PyOther); ("SCRIPT_DIR", PyOther);
      ("log_file", PyOther); ("console", PyOther);
      ("load_environment", PyOther); ("get_config", PyOther);
      ("check_aws_credentials", PyOther); ("upload_to_s3", PyOther);
      ("wait_for_prompt", PyOther); ("main", PyOther) ].

(** [env_file.exists()]: there are the files of [dotenv] and the
    paths of [unreadable]. *)
Definition env_file_exists (env : Env) (env_file : string) : M bool :=
  ret (match dotenv env !! env_file, unreadable env !! env_file with
       | None, None => false
       | _, _ => true
       end).

(** [load_dotenv(env_file)]: the bindings of the file are added to the
    process environment, without overriding what it already has.  At a
    path of [unreadable] the call raises; where there is no file it
    loads nothing. *)
Definition load_dotenv (env : Env) (env_file : string) : M unit := fun w =>
  match dotenv env !! env_file with
  | Some bindings =>
    (Return tt,
     mkWorld (clock w) (inbuf w) (arrivals w) (environ w ∪ bindings) (trace w))
  | None =>
    match unreadable env !! env_file with
    | Some msg => (Raise (OtherException msg), w)
    | None => (Return tt, w)
    end
  end.

(** Lines 48-65.  [main] calls this outside its [try], so that an
    exception of [load_dotenv] is not caught. *)
Definition load_environment (env : Env) (env_name : option string) : M unit :=
  let env_file := env_file_of env env_name in
  present <- env_file_exists env env_file ;;
  (if negb present then
     logging_error ("Environment file not found: " +:+ env_file) ;;
     sys_exit 1
   else ret tt) ;;
  load_dotenv env env_file ;;
  logging_info ("Loaded environment from " +:+ env_file).

Definition os_getenv (var : string) : M (option string) := fun w =>
  (Return (environ w !! var), w).

Definition required_vars : list string :=
  ["ISE_HOST"; "ISE_USER"; "ISE_KEY"; "NFS_PATH"; "AWS_REGION"; "S3_BUCKET"].

(** [not value] for a value that is [None] or a string. *)
Definition falsy (value : option string) : bool :=
  match value with
  | None => true
  | Some s => is_empty s
  end.

(** The [for var in required_vars] loop.  A [None] value is not stored
    in [config]; the function leaves through [sys.exit] in that case. *)
Fixpoint get_config_loop (vars : list string) (config : gmap string string)
    (missing_vars : list string) : M (gmap string string * list string) :=
  match vars with
  | [] => ret (config, missing_vars)
  | var :: vars' =>
    value <- os_getenv var ;;
    let missing_vars :=
      if falsy value then missing_vars ++ [var] else missing_vars in
    let config :=
      match value with
      | Some s => <[var := s]> config
      | None => config
      end in
    get_config_loop vars' config missing_vars
  end.

Definition get_config : M (gmap string string) :=
  r <- get_config_loop required_vars ∅ [] ;;
  let '(config, missing_vars) := r in
  match missing_vars with
  | _ :: _ =>
    logging_error ("Missing required environment variables: "
                   +:+ join ", " missing_vars) ;;
    sys_exit 1
  | [] =>
    prefix <- os_getenv "S3_PREFIX" ;;
    ret (<["S3_PREFIX" := default "ise-reports/" prefix]> config)
  end.

(** [config[key]] for a key that [get_config] has bound. *)
Definition item (config : gmap string string) (key : string) : string :=
  default EmptyString (config !! key).

Definition check_aws_credentials (env : Env) : M bool :=
  match aws_credentials env with
  | CredsFound => ret true
  | CredsNone =>
    logging_error "AWS credentials not found. Please configure AWS credentials." ;;
    ret false
  | CredsError msg =>
    logging_error ("Error checking AWS credentials: " +:+ msg) ;;
    ret false
  end.

(** [upload_to_s3(file_path, bucket, prefix=prefix)], with
    [object_name] left at [None]. *)
Definition upload_to_s3 (env : Env) (file_path bucket prefix : string) : M bool :=
  let object_name := basename file_path in
  let object_name :=
    if is_empty prefix then object_name else prefix +:+ object_name in
  do_event (EvUpload file_path bucket object_name) ;;
  match s3_result env with
  | UploadOk =>
    logging_info ("Successfully uploaded " +:+ file_path +:+ " to s3://"
                  +:+ bucket +:+ "/" +:+ object_name) ;;
    ret true
  | UploadClientError msg =>
    logging_error ("Error uploading to S3: " +:+ msg) ;;
    ret false
  | UploadOtherError msg => raise (OtherException msg)
  end.

(** Lines 164-237, the body of the [try]. *)
Definition session (env : Env) (config : gmap string string) : M unit :=
  logging_info ("Connecting to " +:+ item config "ISE_HOST" +:+ "...") ;;
  key <- os_path_expanduser env (item config "ISE_KEY") ;;
  ssh_connect env (item config "ISE_HOST") (item config "ISE_USER") key ;;
  logging_info "Connected successfully" ;;
  invoke_shell env ;;
  logging_info "Interactive shell created" ;;
  drive_menu globals ;;
  close_connection ;;
  logging_info "Uploading file to S3 bucket" ;;
  csv <- load_str globals "CSV_FILE" ;;
  present <- path_exists env (item config "NFS_PATH" +:+ "/" +:+ csv) ;;
  (if present then
     csv <- load_str globals "CSV_FILE" ;;
     uploaded <- upload_to_s3 env (item config "NFS_PATH" +:+ "/" +:+ csv)
                              (item config "S3_BUCKET") (item config "S3_PREFIX") ;;
     if negb uploaded then
       logging_error "Failed to upload file to S3" ;; sys_exit 1
     else ret tt
   else
     nfs_csv <- load_str globals "CSV_FILE" ;;
     logging_error ("File not found: " +:+ item config "NFS_PATH" +:+ "/" +:+ nfs_csv) ;;
     sys_exit 1) ;;
  logging_info "ISE export process completed successfully".

Definition main (env : Env) : M unit :=
  let env_name := env_name_of env in
  load_environment env env_name ;;
  config <- get_config ;;
  logging_info ("Starting ISE export process for environment: "
                +:+ match env_name with
                    | Some (String c name) => String c name
                    | _ => "default"
                    end) ;;
  ok <- check_aws_credentials env ;;
  (if negb ok then sys_exit 1 else ret tt) ;;
  try_except (session env config) on_ssh_exception on_exception.

End IseExport.

(** ** ise-export-test.py *)

Module IseExportTest.

(** The names bound at module level when [main()] runs. *)
Definition globals (env : Env) : gmap string pyobj :=
  list_to_map
    [ ("__author__", PyStr "Andre Klyuchka");
      ("__email__", PyStr "aklyuchk@cisco.com");
      ("__website__", PyStr "https://codeyo.net");
      ("__license__", PyStr "MIT - https://mit-license.org/");
      ("paramiko", PyOther); ("os", PyOther); ("sys", PyOther);
      ("logging", PyOther); ("datetime", PyOther); ("time", PyOther);
      ("console", PyOther);
      ("ISE_HOST", PyStr "1.2.3.4");
      ("ISE_USER", PyStr "iseadmin");
      ("ISE_KEY", PyStr (expanduser env "~/.ssh/ise"));
      ("NFS_PATH", PyStr "/home/nfsshare");
      ("PRESIGNED_URL",
       PyStr ("https://your-s3-bucket.s3.amazonaws.com/FullReport_"
              +:+ today env +:+ ".csv?AWSAccessKeyId=..."));
      ("TODAY", PyStr (today env));
      ("CSV_FILE", PyStr ("FullReport_" +:+ today env +:+ ".csv"));
      ("wait_for_prompt", PyOther); ("main", PyOther) ].

Definition os_system (env : Env) (cmd : string) : M Z :=
  do_event (EvSystem cmd) ;; ret (system_status env).

(** Lines 67-133, the body of the [try]. *)
Definition session (env : Env) : M unit :=
  let G := globals env in
  host <- load_str G "ISE_HOST" ;;
  logging_info ("Connecting to " +:+ host +:+ "...") ;;
  host <- load_str G "ISE_HOST" ;;
  user <- load_str G "ISE_USER" ;;
  key <- load_str G "ISE_KEY" ;;
  ssh_connect env host user key ;;
  logging_info "Connected successfully" ;;
  invoke_shell env ;;
  logging_info "Interactive shell created" ;;
  drive_menu G ;;
  close_connection ;;
  logging_info "Uploading file to S3 bucket" ;;
  nfs_path <- load_str G "NFS_PATH" ;;
  csv <- load_str G "CSV_FILE" ;;
  present <- path_exists env (nfs_path +:+ "/" +:+ csv) ;;
  (if present then
     nfs_path <- load_str G "NFS_PATH" ;;
     csv <- load_str G "CSV_FILE" ;;
     url <- load_str G "PRESIGNED_URL" ;;
     let upload_cmd :=
       "curl -X PUT -T " +:+ DQUOTE +:+ nfs_path +:+ "/" +:+ csv +:+ DQUOTE
       +:+ " " +:+ DQUOTE +:+ url +:+ DQUOTE in
     status <- os_system env upload_cmd ;;
     if negb (status =? 0) then
       logging_error "Failed to upload file to S3" ;; sys_exit 1
     else ret tt
   else
     nfs_path <- load_str G "NFS_PATH" ;;
     csv <- load_str G "CSV_FILE" ;;
     logging_error ("File not found: " +:+ nfs_path +:+ "/" +:+ csv) ;;
     sys_exit 1) ;;
  logging_info "ISE export process completed successfully".

Definition main (env : Env) : M unit :=
  logging_info "Starting ISE export process" ;;
  try_except (session env) on_ssh_exception on_exception.

End IseExportTest.

(** ** Views of a run, used to state its properties *)

(** The events a run adds to the history. *)
Definition history {A} (m : M A) (w : World) : list event :=
  List.skipn (length (trace w)) (trace (snd (m w))).

(** Time spent in a run. *)
Definition elapsed {A} (m : M A) (w : World) : Z :=
  clock (snd (m w)) - clock w.

(** Reads, sleeps and informational log lines; what remains of a
    history without them is its skeleton. *)
Definition is_io (e : event) : bool :=
  match e with
  | EvRecv _ | EvSleep _ | EvLog INFO _ => true
  | _ => false
  end.

Definition skel (evs : list event) : list event :=
  List.filter (fun e => negb (is_io e)) evs.

(** The chunks returned by [channel.recv], in order. *)
Fixpoint received (evs : list event) : list string :=
  match evs with
  | [] => []
  | EvRecv data :: evs' => data :: received evs'
  | _ :: evs' => received evs'
  end.

Definition sent (evs : list event) : list string :=
  flat_map (fun e => match e with EvSend data => [data] | _ => [] end) evs.

Definition results (evs : list event) : list bool :=
  flat_map (fun e => match e with EvResult b => [b] | _ => [] end) evs.

Definition closes (evs : list event) : list event :=
  List.filter (fun e => match e with
                        | EvCloseChannel | EvCloseClient => true
                        | _ => false
                        end) evs.

Definition errors (evs : list event) : list string :=
  flat_map (fun e => match e with EvLog ERROR msg => [msg] | _ => [] end) evs.

Definition expects (evs : list event) : list string :=
  flat_map (fun e => match e with EvExpect prompt => [prompt] | _ => [] end) evs.

(** Attempts to publish the file: [upload_file] or the [curl] command. *)
Definition uploads (evs : list event) : list event :=
  List.filter (fun e => match e with
                        | EvUpload _ _ _ | EvSystem _ => true
                        | _ => false
                        end) evs.

(** The script as a table: what each step sends, if anything, what it
    waits for, and what it logs when the wait times out. *)
Record Step : Type := mkStep {
  send : option string;
  expect : string;
  on_timeout : string
}.

Definition script (csv : string) : list Step :=
  [ mkStep None PROMPT "Timeout waiting for initial prompt";
    mkStep (Some "application configure ise") MENU "Timeout waiting for menu";
    mkStep (Some "16") STARTED "Timeout waiting for report start";
    mkStep None COMPLETED "Timeout waiting for report completion";
    mkStep (Some "0") PROMPT "Timeout waiting for admin prompt";
    mkStep (Some ("copy disk:/" +:+ csv +:+ " repository NFS")) PROMPT
           "Timeout waiting for copy completion" ].

Definition commands (steps : list Step) : list string :=
  flat_map (fun s => match send s with
                     | Some cmd => [cmd +:+ NL]
                     | None => []
                     end) steps.

(** The skeleton of one step: the command, if any, the entry to
    [wait_for_prompt], and how the wait ended ([None]: it raised). *)
Definition step_events (s : Step) (r : option bool) : list event :=
  map EvSend (commands [s])
  ++ EvExpect (expect s)
  :: match r with
     | Some matched => [EvResult matched]
     | None => []
     end.

(** The skeleton of steps that all matched. *)
Definition steps_matched (steps : list Step) : list event :=
  flat_map (fun s => step_events s (Some true)) steps.

(** How the menu dialogue can end. *)
Inductive ending : Type :=
| Matched                 (* all six waits matched *)
| TimedOut (k : nat)      (* the wait of step [k] timed out *)
| Garbled (k : nat)       (* a chunk read in step [k] did not decode *)
| Unbound.                (* [CSV_FILE] was looked up and not found *)

Definition menu_skeleton (csv : string) (e : ending) : list event :=
  match e with
  | Matched => steps_matched (script csv)
  | TimedOut k =>
    steps_matched (firstn k (script csv))
    ++ match nth_error (script csv) k with
       | Some s => step_events s (Some false) ++ [EvLog ERROR (on_timeout s)]
       | None => []
       end
  | Garbled k =>
    steps_matched (firstn k (script csv))
    ++ match nth_error (script csv) k with
       | Some s => step_events s None
       | None => []
       end
  | Unbound => steps_matched (firstn 5 (script csv))
  end.

Definition menu_outcome (e : ending) : outcome unit :=
  match e with
  | Matched => Return tt
  | TimedOut _ => Raise (SystemExit 1)
  | Garbled _ => Raise UnicodeDecodeError
  | Unbound => Raise (NameError "CSV_FILE")
  end.

(** The value of [CSV_FILE] in a namespace that binds it. *)
Definition csv_of (G : gmap string pyobj) : string :=
  match G !! "CSV_FILE" with
  | Some v => format_obj v
  | None => EmptyString
  end.

Definition menu_ending_ok (G : gmap string pyobj) (e : ending) : Prop :=
  match e with
  | Matched => is_Some (G !! "CSV_FILE")
  | TimedOut k | Garbled k =>
    (k < 6)%nat /\ (k = 5%nat -> is_Some (G !! "CSV_FILE"))
  | Unbound => G !! "CSV_FILE" = None
  end.

(** How a whole run can end. *)
Inductive path : Type :=
| EarlyExit (msg : string)     (* before the connection: no env file, configuration or credentials *)
| ConnectFailed (e : net_error)
| ShellFailed (e : net_error)
| InMenu (e : ending)          (* the dialogue did not get through *)
| FileMissing
| UploadFailed
| Uploaded
| Uncaught (e : exn).          (* an exception raised outside the [try]: a traceback *)

Definition handler_line (e : exn) : string :=
  match e with
  | SSHException msg => "SSH error: " +:+ msg
  | _ => "An error occurred: " +:+ str_of_exn e
  end.

(** The skeleton of a run: [conn] is the connection attempt, [file]
    the path checked on the share, [upload] the upload attempt. *)
Definition skeleton_of (conn : event) (csv file : string) (upload : event)
    (p : path) : list event :=
  match p with
  | Uncaught _ => []
  | EarlyExit msg => [EvLog ERROR msg]
  | ConnectFailed e => [conn; EvLog ERROR (handler_line (exn_of e))]
  | ShellFailed e =>
    [conn; EvInvokeShell; EvLog ERROR (handler_line (exn_of e))]
  | InMenu e =>
    [conn; EvInvokeShell] ++ menu_skeleton csv e
    ++ match menu_outcome e with
       | Raise (SystemExit _) | Return _ | Hang => []
       | Raise x => [EvLog ERROR (handler_line x)]
       end
  | FileMissing =>
    [conn; EvInvokeShell] ++ steps_matched (script csv)
    ++ [EvCloseChannel; EvCloseClient; EvLog ERROR ("File not found: " +:+ file)]
  | UploadFailed =>
    [conn; EvInvokeShell] ++ steps_matched (script csv)
    ++ [EvCloseChannel; EvCloseClient; upload;
        EvLog ERROR "Failed to upload file to S3"]
  | Uploaded =>
    [conn; EvInvokeShell] ++ steps_matched (script csv)
    ++ [EvCloseChannel; EvCloseClient; upload]
  end.

Definition outcome_of (p : path) : outcome unit :=
  match p with
  | Uploaded => Return tt
  | Uncaught e => Raise e
  | _ => Raise (SystemExit 1)
  end.

(** What [skeleton_of] is applied to for ise-export-test.py. *)
Definition test_csv (env : Env) : string :=
  "FullReport_" +:+ today env +:+ ".csv".

Definition test_file (env : Env) : string :=
  "/home/nfsshare" +:+ "/" +:+ test_csv env.

Definition test_conn (env : Env) : event :=
  EvConnect "1.2.3.4" "iseadmin" (expanduser env "~/.ssh/ise").

Definition test_upload (env : Env) : event :=
  EvSystem ("curl -X PUT -T " +:+ DQUOTE +:+ "/home/nfsshare" +:+ "/"
            +:+ test_csv env +:+ DQUOTE +:+ " " +:+ DQUOTE
            +:+ ("https://your-s3-bucket.s3.amazonaws.com/FullReport_"
                 +:+ today env +:+ ".csv?AWSAccessKeyId=...")
            +:+ DQUOTE).

(** The ways ise-export-test.py can end, with what each says about
    the environment. *)
Definition test_path_ok (env : Env) (p : path) : Prop :=
  match p with
  | Uncaught _ | EarlyExit _ => False
  | ConnectFailed e => connect_result env = Some e
  | ShellFailed e => shell_result env = Some e
  | InMenu (TimedOut k) | InMenu (Garbled k) => (k < 6)%nat
  | InMenu _ => False
  | FileMissing => test_file env ∉ files env
  | UploadFailed => test_file env ∈ files env /\ system_status env <> 0
  | Uploaded => test_file env ∈ files env /\ system_status env = 0
  end.

(** The ways ise-export.py can end. *)
Definition export_path_ok (p : path) : Prop :=
  match p with
  | Uncaught (OtherException _) => True
  | EarlyExit _ | ConnectFailed _ | ShellFailed _ | InMenu Unbound => True
  | InMenu (TimedOut k) | InMenu (Garbled k) => (k < 5)%nat
  | _ => False
  end.

(** A run of [m] from [w] adds events to the history, and its result,
    the skeleton of what it added and the world it leaves satisfy [Q]. *)
Definition post {A} (m : M A) (w : World)
    (Q : outcome A -> list event -> World -> Prop) : Prop :=
  exists evs,
    trace (snd (m w)) = trace w ++ evs
    /\ Q (fst (m w)) (skel evs) (snd (m w)).

(** What one run of the [while] loop guarantees: [evs] are the events
    it adds, all of them reads, sleeps and log lines, and the result
    is determined by the chunks read. *)
Definition poll_post (interval : Z) (prompt : string) (timeout start : Z)
    (buffer : string) (w : World) (r : outcome bool) (w' : World)
    (evs : list event) : Prop :=
  trace w' = trace w ++ evs /\ skel evs = [] /\ environ w' = environ w /\
  match r with
  | Return true =>
    Forall (fun c => utf8_valid c = true) (received evs)
    /\ received evs <> []
    /\ str_in prompt (buffer +:+ cat (received evs)) = true
    /\ clock w <= clock w' /\ clock w' - start < timeout
  | Return false =>
    Forall (fun c => utf8_valid c = true) (received evs)
    /\ (received evs = []
        \/ str_in prompt (buffer +:+ cat (received evs)) = false)
    /\ timeout <= clock w' - start
    /\ (clock w' = clock w
        \/ (clock w < clock w' /\ clock w' - start < timeout + interval))
  | Raise e =>
    e = UnicodeDecodeError
    /\ exists chunks last,
         received evs = chunks ++ [last]
         /\ utf8_valid last = false
         /\ Forall (fun c => utf8_valid c = true) chunks
         /\ (chunks = [] \/ str_in prompt (buffer +:+ cat chunks) = false)
  | Hang => False
  end.

(** Two worlds in which the clock and the channel are the same; they
    may differ in the history and in the process environment. *)
Definition same_channel (w1 w2 : World) : Prop :=
  clock w1 = clock w2 /\ inbuf w1 = inbuf w2 /\ arrivals w1 = arrivals w2.

(** The ghost event that closes a call of [wait_for_prompt]. *)
Definition result_events (r : outcome bool) : list event :=
  match r with
  | Return matched => [EvResult matched]
  | _ => []
  end.

(** ** Worlds and environments used in examples *)

Definition world_of (t0 : Z) (buffered : string) (arriving : list string) : World :=
  mkWorld t0 buffered arriving ∅ [].

(** Three bytes are buffered, two more arrive; the prompt never does. *)
Definition quiet_world : World := world_of 5000 "hel" ["lo"].

(** The prompt arrives in two pieces. *)
Definition split_world : World := world_of 0 "ise-ppan-cx/ad" ["min# "].


(** The prompt is there at once. *)
Definition ready_world : World := world_of 0 "#" [].

(** The prompt comes after one sleep, behind other text. *)
Definition slow_world : World := world_of 0 EmptyString ["ab#"].

(** The menu text comes in one chunk with the first prompt; nothing
    follows. *)
Definition early_menu_world : World :=
  world_of 0 (PROMPT +:+ " " +:+ MENU) [].

(** What it means for a run with history [h] and result [r] to stop at
    step [k] of the script: the waits before it matched, the wait of
    step [k] is the last one and timed out, nothing of a later step was
    sent or waited for, the one error logged is that of step [k], and
    the process leaves with status 1. *)
Definition stops_at (csv : string) (k : nat) (h : list event)
    (r : outcome unit) : Prop :=
  exists step,
    nth_error (script csv) k = Some step
    /\ results h = List.repeat true k ++ [false]
    /\ expects h = map expect (firstn (S k) (script csv))
    /\ sent h = commands (firstn (S k) (script csv))
    /\ errors h = [on_timeout step]
    /\ exit_status r = Some 1.

(** The settings of an installation, as its [.env] file has them. *)
Definition lab_settings : gmap string string :=
  list_to_map
    [ ("ISE_HOST", "10.0.0.5"); ("ISE_USER", "admin");
      ("ISE_KEY", "~/.ssh/ise"); ("NFS_PATH", "/mnt/nfs");
      ("AWS_REGION", "us-east-1"); ("S3_BUCKET", "reports") ].

(** A host on which connecting works and nothing is on the share. *)
Definition lab_env : Env :=
  mkEnv ["ise-export.py"] "/opt/ise" (Some "/root") ∅ "04-Nov-2026"
        {[ "/opt/ise/.env" := lab_settings ]} ∅ CredsFound None None
        ∅ UploadOk 0.

(** The same host with the report on the share. *)
Definition stocked_env : Env :=
  mkEnv ["ise-export.py"] "/opt/ise" (Some "/root") ∅ "04-Nov-2026"
        {[ "/opt/ise/.env" := lab_settings ]} ∅ CredsFound None None
        {[ "/home/nfsshare/FullReport_04-Nov-2026.csv" ]} UploadOk 0.

(** The appliance never writes anything. *)
Definition silent_world : World := world_of 0 EmptyString [].

(** The report starts and never completes. *)
Definition stalled_world : World := world_of 0 PROMPT [MENU; STARTED].

(** Every marker arrives, each one sleep after the previous one. *)
Definition smooth_world : World :=
  world_of 0 PROMPT [MENU; STARTED; COMPLETED; PROMPT; PROMPT].


(** ** Further views of the code *)

(** The required variables that a process environment leaves unset or
    empty, in the order of [required_vars]. *)
Definition missing_of (E : gmap string string) : list string :=
  List.filter (fun var => IseExport.falsy (E !! var)) IseExport.required_vars.

(** The arguments of [time.sleep], in order. *)
Definition sleeps (evs : list event) : list Z :=
  flat_map (fun e => match e with EvSleep ms => [ms] | _ => [] end) evs.

(** The connection attempts. *)
Definition connects (evs : list event) : list event :=
  List.filter (fun e => match e with EvConnect _ _ _ => true | _ => false end)
              evs.

(** Bytes below 128 only. *)
Fixpoint ascii_only (s : string) : bool :=
  match s with
  | EmptyString => true
  | String c s' => (byte c <? 128) && ascii_only s'
  end.

Fixpoint no_slash (s : string) : bool :=
  match s with
  | EmptyString => true
  | String c s' => negb (Ascii.eqb c "/") && no_slash s'
  end.

(** The bytes the channel delivers during the first [n] sleeps, after
    what is buffered. *)
Definition delivered (w : World) (n : nat) : string :=
  inbuf w +:+ cat (firstn n (arrivals w)).

(** A process environment with all the settings, and one in which a
    variable is empty and another is not set. *)
Definition configured_world : World :=
  mkWorld 0 EmptyString [] lab_settings [].

Definition half_configured_world : World :=
  mkWorld 0 EmptyString []
          (<["ISE_KEY" := EmptyString]> (delete "S3_BUCKET" lab_settings)) [].

(** How ise-export.py stops before it connects: with an error line
    and [sys.exit(1)], or with an exception that nothing catches. *)
Inductive halt : Type :=
| ErrorLine (msg : string)
| Traceback (e : exn).

Definition halt_outcome (stop : halt) : outcome unit :=
  match stop with
  | ErrorLine _ => Raise (SystemExit 1)
  | Traceback e => Raise e
  end.

Definition halt_events (stop : halt) : list event :=
  match stop with
  | ErrorLine msg => [EvLog ERROR msg]
  | Traceback _ => []
  end.

(** The checks [main] of ise-export.py makes before it connects, in
    order; the result is how the first one that fails stops the run
    (ise-export.py 150-161). *)
Definition preflight (env : Env) (w : World) : option halt :=
  let env_file := env_file_of env (env_name_of env) in
  match dotenv env !! env_file with
  | None =>
    match unreadable env !! env_file with
    | Some msg => Some (Traceback (OtherException msg))
    | None => Some (ErrorLine ("Environment file not found: " +:+ env_file))
    end
  | Some bindings =>
    match missing_of (environ w ∪ bindings) with
    | (_ :: _) as missing =>
      Some (ErrorLine ("Missing required environment variables: "
                       +:+ join ", " missing))
    | [] =>
      match aws_credentials env with
      | CredsFound => None
      | CredsNone =>
        Some (ErrorLine
                "AWS credentials not found. Please configure AWS credentials.")
      | CredsError msg =>
        Some (ErrorLine ("Error checking AWS credentials: " +:+ msg))
      end
    end
  end.

(** The connection attempt of ise-export.py with the settings [E]. *)
Definition export_conn (env : Env) (E : gmap string string) : event :=
  EvConnect (default EmptyString (E !! "ISE_HOST"))
            (default EmptyString (E !! "ISE_USER"))
            (expand (userhome_of env E) (passwd env)
                    (default EmptyString (E !! "ISE_KEY"))).

(** What a path says about the host: how far the session got. *)
Definition reached (env : Env) (p : path) : Prop :=
  match p with
  | Uncaught _ | EarlyExit _ => True
  | ConnectFailed e => connect_result env = Some e
  | ShellFailed e => connect_result env = None /\ shell_result env = Some e
  | _ => connect_result env = None /\ shell_result env = None
  end.

(** A host that refuses the connection, and one on which the shell
    cannot be opened. *)
Definition unreachable_env : Env :=
  mkEnv ["ise-export.py"] "/opt/ise" (Some "/root") ∅ "04-Nov-2026"
        {[ "/opt/ise/.env" := lab_settings ]} ∅ CredsFound
        (Some (SshError "Authentication failed.")) None ∅ UploadOk 0.

Definition no_shell_env : Env :=
  mkEnv ["ise-export.py"] "/opt/ise" (Some "/root") ∅ "04-Nov-2026"
        {[ "/opt/ise/.env" := lab_settings ]} ∅ CredsFound
        None (Some (OtherError "Channel closed.")) ∅ UploadOk 0.

(** The installation started for the environment [name], with an
    environment file that its user may not read. *)
Definition locked_env (name : string) : Env :=
  mkEnv ["ise-export.py"; name] "/opt/ise" (Some "/root") ∅ "04-Nov-2026"
        ∅ {[ "/opt/ise/.env.prod"
             := "[Errno 13] Permission denied: '/opt/ise/.env.prod'" ]}
        CredsFound None None ∅ UploadOk 0.

(** [m] always comes back, and at most [limit] milliseconds after it
    was started. *)
Definition within {A} (limit : Z) (m : M A) : Prop :=
  forall w, fst (m w) <> Hang /\ 0 <= elapsed m w <= limit.

(** The informational lines logged, in order. *)
Definition infos (evs : list event) : list string :=
  flat_map (fun e => match e with EvLog INFO msg => [msg] | _ => [] end) evs.



Fixpoint spaces (n : nat) : string :=
  match n with
  | O => EmptyString
  | S n' => String " " (spaces n')
  end.

(** The prompt is followed by the first two bytes of the three of a
    euro sign; the third arrives later. *)
Definition torn_world : World :=
  world_of 0 (PROMPT +:+ " " +:+ String "226" (String "130" EmptyString))
           [String "172" EmptyString].

(** The menu text comes in one chunk with the first prompt; other text
    follows one sleep later. *)
Definition stale_menu_world : World :=
  world_of 0 (PROMPT +:+ " " +:+ MENU) ["x"].

(** The menu text is already buffered when the first prompt is read,
    but lies beyond the first 1024 bytes. *)
Definition backlog_world : World :=
  world_of 0 (PROMPT +:+ spaces 1006 +:+ MENU) [].

Local Open Scope py_scope.
#[local] Arguments String.append !s1 s2 : simpl nomatch.
#[local] Arguments take : simpl never.
#[local] Arguments drop : simpl never.
#[local] Arguments strip : simpl never.
#[local] Arguments utf8_valid : simpl never.
#[local] Arguments str_in : simpl never.

(** * Properties *)

(** ** Byte strings *)

Section Strings.

Lemma append_nil_r (s : string) : s +:+ EmptyString = s.
Proof. induction s as [|c s IH]; simpl; congruence. Qed.

Lemma append_assoc (a b c : string) : (a +:+ b) +:+ c = a +:+ (b +:+ c).
Proof. induction a as [|x a IH]; simpl; congruence. Qed.

Lemma cat_app (l1 l2 : list string) : cat (l1 ++ l2) = cat l1 +:+ cat l2.
Proof.
  induction l1 as [|x l1 IH]; simpl; [reflexivity|].
  rewrite IH. symmetry. apply append_assoc.
Qed.

Lemma prefix_iff (p s : string) :
  String.prefix p s = true <-> exists t, s = p +:+ t.
Proof.
  revert s. induction p as [|c p IH]; intros s.
  - destruct s; simpl; split; eauto.
  - destruct s as [|d s]; simpl.
    + split; [discriminate | intros [t Ht]; discriminate].
    + destruct (ascii_dec c d) as [->|Hne].
      * rewrite IH. split; intros [t Ht]; exists t; congruence.
      * split; [discriminate | intros [t Ht]; congruence].
Qed.

Lemma str_in_nil (needle : string) :
  str_in needle EmptyString = String.prefix needle EmptyString.
Proof. unfold str_in. apply orb_false_r. Qed.

Lemma str_in_cons (needle : string) (c : ascii) (hay : string) :
  str_in needle (String c hay)
  = String.prefix needle (String c hay) || str_in needle hay.
Proof. reflexivity. Qed.

(** [str_in] is the substring test. *)
Lemma str_in_iff (needle hay : string) :
  str_in needle hay = true <-> exists a b, hay = a +:+ needle +:+ b.
Proof.
  induction hay as [|c hay IH].
  - rewrite str_in_nil, prefix_iff. split.
    + intros [t Ht]. exists EmptyString, t. exact Ht.
    + intros [a [b Hab]]. destruct a; [eauto | discriminate].
  - rewrite str_in_cons, orb_true_iff, prefix_iff, IH. split.
    + intros [[t Ht] | [a [b Hab]]].
      * exists EmptyString, t. exact Ht.
      * exists (String c a), b. simpl. congruence.
    + intros [[|d a] [b Hab]]; simpl in Hab.
      * left. eauto.
      * right. exists a, b. congruence.
Qed.

Lemma str_in_app_l (needle a b : string) :
  str_in needle a = true -> str_in needle (a +:+ b) = true.
Proof.
  rewrite !str_in_iff. intros [x [y ->]]. exists x, (y +:+ b).
  now rewrite !append_assoc.
Qed.

Lemma str_in_app_l_false (needle a b : string) :
  str_in needle (a +:+ b) = false -> str_in needle a = false.
Proof.
  intros H. destruct (str_in needle a) eqn:E; [|reflexivity].
  apply (str_in_app_l _ _ b) in E. congruence.
Qed.

End Strings.

(** ** The poll loop *)

(** One turn of the loop. *)
Lemma poll_loop_step (fuel : nat) (interval : Z) (prompt : string)
    (timeout start : Z) (buffer : string) (w : World) :
  poll_loop (S fuel) interval prompt timeout start buffer w =
  if clock w - start <? timeout then
    if is_empty (inbuf w) then
      poll_loop fuel interval prompt timeout start buffer
                (snd (time_sleep interval w))
    else
      let data := take 1024 (inbuf w) in
      let w1 := snd (recv 1024 w) in
      if utf8_valid data then
        let w2 := emit (EvLog INFO ("Received: " +:+ strip data)) w1 in
        if str_in prompt (buffer +:+ data) then (Return true, w2)
        else poll_loop fuel interval prompt timeout start (buffer +:+ data)
                       (snd (time_sleep interval w2))
      else (Raise UnicodeDecodeError, w1)
  else (Return false, w).
Proof.
  simpl. unfold bind, time_time, recv_ready, recv, decode_utf8. simpl.
  destruct (clock w - start <? timeout); [|reflexivity].
  destruct (is_empty (inbuf w)) eqn:Hempty; simpl; [reflexivity|].
  rewrite Hempty.
  destruct (utf8_valid (take 1024 (inbuf w))); simpl; [|reflexivity].
  destruct (str_in prompt (buffer +:+ take 1024 (inbuf w))); reflexivity.
Qed.

Section Poll.

Variables (interval : Z) (prompt : string) (timeout start : Z).
Hypothesis interval_pos : 0 < interval.

Lemma poll_loop_spec (fuel : nat) :
  forall (buffer : string) (w : World) (r : outcome bool) (w' : World),
    (1 <= fuel)%nat ->
    timeout - (clock w - start) <= (Z.of_nat fuel - 1) * interval ->
    poll_loop fuel interval prompt timeout start buffer w = (r, w') ->
    exists evs, poll_post interval prompt timeout start buffer w r w' evs.
Proof.
  induction fuel as [|fuel IH]; intros buffer w r w' Hfuel Hbound Hrun; [lia|].
  rewrite poll_loop_step in Hrun.
  destruct (clock w - start <? timeout) eqn:Hlt.
  2:{ apply Z.ltb_ge in Hlt. inversion Hrun; subst r w'. exists [].
      unfold poll_post. rewrite app_nil_r. simpl. repeat split; auto. }
  apply Z.ltb_lt in Hlt.
  assert (Hfuel' : (1 <= fuel)%nat) by (destruct fuel; [simpl in Hbound|]; lia).
  destruct (is_empty (inbuf w)) eqn:Hempty.
  - (* nothing to read: sleep and poll again *)
    apply IH in Hrun; [|assumption|simpl; lia].
    destruct Hrun as [evs (Htr & Hsk & Henv & Hr)]. simpl in Htr, Henv, Hr.
    exists (EvSleep interval :: evs). unfold poll_post.
    rewrite Htr, <- app_assoc. simpl. repeat split; auto.
    destruct r as [[|]|e|]; auto.
    + destruct Hr as (? & ? & ? & ? & ?). repeat split; auto. lia.
    + destruct Hr as (? & ? & ? & ?). repeat split; auto. right. lia.
  - (* a chunk is read *)
    cbv zeta in Hrun. unfold recv in Hrun. rewrite Hempty in Hrun.
    cbn [snd] in Hrun.
    set (data := take 1024 (inbuf w)) in *.
    destruct (utf8_valid data) eqn:Hvalid.
    2:{ inversion Hrun; subst r w'. exists [EvRecv data].
        unfold poll_post. simpl. repeat split; auto.
        exists [], data. repeat split; auto. }
    destruct (str_in prompt (buffer +:+ data)) eqn:Hin.
    + inversion Hrun; subst r w'.
      exists [EvRecv data; EvLog INFO ("Received: " +:+ strip data)].
      unfold poll_post. simpl. rewrite <- app_assoc, append_nil_r. simpl.
      repeat split; auto; try lia; try discriminate.
    + apply IH in Hrun; [|assumption|simpl; lia].
      destruct Hrun as [evs (Htr & Hsk & Henv & Hr)]. simpl in Htr, Henv, Hr.
      exists (EvRecv data :: EvLog INFO ("Received: " +:+ strip data)
              :: EvSleep interval :: evs).
      unfold poll_post. rewrite Htr, <- !app_assoc. simpl.
      repeat split; auto.
      destruct r as [[|]|e|]; auto.
      * destruct Hr as (? & ? & Hm & ? & ?). rewrite append_assoc in Hm.
        repeat split; auto; try lia; try discriminate.
      * destruct Hr as (? & Hm & ? & ?). repeat split; auto.
        -- right. destruct Hm as [-> | Hm]; simpl.
           ++ now rewrite append_nil_r.
           ++ now rewrite <- append_assoc.
        -- right. lia.
      * destruct Hr as (-> & chunks & last & Hrecv & Hlast & Hall & Hm).
        split; [reflexivity|].
        exists (data :: chunks), last. rewrite Hrecv.
        repeat split; auto. right. destruct Hm as [-> | Hm]; simpl.
        -- now rewrite append_nil_r.
        -- now rewrite <- append_assoc.
Qed.

End Poll.

(** ** [wait_for_prompt] *)

Lemma received_app (l1 l2 : list event) :
  received (l1 ++ l2) = received l1 ++ received l2.
Proof.
  induction l1 as [|e l1 IH]; simpl; [reflexivity|].
  destruct e; simpl; congruence.
Qed.

Lemma skel_app (l1 l2 : list event) : skel (l1 ++ l2) = skel l1 ++ skel l2.
Proof. apply List.filter_app. Qed.

Lemma received_result_events (r : outcome bool) : received (result_events r) = [].
Proof. destruct r; reflexivity. Qed.

Lemma history_app {A} (m : M A) (w : World) (evs : list event) :
  trace (snd (m w)) = trace w ++ evs -> history m w = evs.
Proof. unfold history. intros ->. apply drop_app_length. Qed.

Lemma poll_fuel_enough (interval timeout : Z) :
  0 < interval ->
  timeout <= (Z.of_nat (poll_fuel interval timeout) - 1) * interval.
Proof.
  intros Hpos. unfold poll_fuel.
  pose proof (Z.mul_succ_div_gt timeout interval Hpos) as Hdiv.
  destruct (Z_lt_le_dec (timeout / interval) 0) as [Hneg|Hnn].
  - replace (Z.to_nat (timeout / interval)) with 0%nat by lia. nia.
  - replace (Z.of_nat (Z.to_nat (timeout / interval) + 2) - 1)
      with (Z.succ (timeout / interval)) by lia.
    lia.
Qed.

Lemma wait_for_prompt_every_unfold (interval : Z) (prompt : string)
    (timeout : Z) (w : World) :
  wait_for_prompt_every interval prompt timeout w =
  match poll_loop (poll_fuel interval timeout) interval prompt timeout
                  (clock w) EmptyString (emit (EvExpect prompt) w) with
  | (Return matched, w1) => (Return matched, emit (EvResult matched) w1)
  | (Raise e, w1) => (Raise e, w1)
  | (Hang, w1) => (Hang, w1)
  end.
Proof.
  unfold wait_for_prompt_every, bind, do_event, time_time, ret. simpl.
  destruct (poll_loop _ _ _ _ _ _ _) as [[b|e|] w1]; reflexivity.
Qed.

(** The call as a whole: what the loop guarantees, between the two
    ghost events. *)
Lemma wait_for_prompt_every_spec (interval : Z) (prompt : string)
    (timeout : Z) (w : World) :
  0 < interval ->
  let m := wait_for_prompt_every interval prompt timeout in
  exists evs w1,
    poll_post interval prompt timeout (clock w) EmptyString
              (emit (EvExpect prompt) w) (fst (m w)) w1 evs
    /\ history m w = EvExpect prompt :: evs ++ result_events (fst (m w))
    /\ elapsed m w = clock w1 - clock w
    /\ environ (snd (m w)) = environ w
    /\ trace (snd (m w))
       = trace w ++ EvExpect prompt :: evs ++ result_events (fst (m w)).
Proof.
  intros Hpos m. subst m. unfold elapsed.
  destruct (poll_loop (poll_fuel interval timeout) interval prompt timeout
                      (clock w) EmptyString (emit (EvExpect prompt) w))
    as [r w1] eqn:Hloop.
  pose proof Hloop as Hspec.
  apply poll_loop_spec in Hspec; [|assumption|unfold poll_fuel; lia|].
  2:{ simpl. pose proof (poll_fuel_enough interval timeout Hpos). lia. }
  destruct Hspec as [evs Hpost]. exists evs, w1.
  pose proof (wait_for_prompt_every_unfold interval prompt timeout w) as Hm.
  rewrite Hloop in Hm.
  pose proof Hpost as (Htr & _ & Henv & _). simpl in Htr, Henv.
  assert (Htrace : trace (snd (wait_for_prompt_every interval prompt timeout w))
                   = trace w ++ EvExpect prompt :: evs ++ result_events r).
  { rewrite Hm. destruct r as [b|e|]; simpl; rewrite Htr, <- !app_assoc;
      rewrite ?app_nil_r; reflexivity. }
  assert (Hfst : fst (wait_for_prompt_every interval prompt timeout w) = r).
  { rewrite Hm. destruct r; reflexivity. }
  rewrite Hfst. split; [exact Hpost|]. split; [now apply history_app|].
  split; [|split; [|exact Htrace]].
  - rewrite Hm. destruct r; reflexivity.
  - rewrite Hm. destruct r; simpl; auto.
Qed.

Lemma cat_firstn_prefix (n : nat) (l : list string) :
  exists rest, cat l = cat (firstn n l) +:+ rest.
Proof.
  exists (cat (skipn n l)). rewrite <- cat_app. now rewrite firstn_skipn.
Qed.

Lemma str_in_firstn (prompt : string) (n : nat) (l : list string) :
  str_in prompt (cat (firstn n l)) = true -> str_in prompt (cat l) = true.
Proof.
  intros H. destruct (cat_firstn_prefix n l) as [rest ->].
  now apply str_in_app_l.
Qed.

Lemma received_history (prompt : string) (evs : list event) (r : outcome bool) :
  received (EvExpect prompt :: evs ++ result_events r) = received evs.
Proof.
  simpl. rewrite received_app, received_result_events. apply app_nil_r.
Qed.

(** C2, as amended: as soon as the chunks read so far, each of which
    decodes on its own, contain the prompt when joined, the call
    returns [True]; the chunks may split the prompt anywhere. *)
Theorem match_across_reads (prompt : string) (timeout : Z) (w : World) (n : nat) :
  let m := wait_for_prompt prompt timeout in
  let chunks := received (history m w) in
  (0 < n <= length chunks)%nat ->
  Forall (fun c => utf8_valid c = true) (firstn n chunks) ->
  str_in prompt (cat (firstn n chunks)) = true ->
  fst (m w) = Return true.
Proof.
  intros m chunks Hn Hvalid Hin. subst chunks.
  destruct (wait_for_prompt_every_spec SLEEP_MS prompt timeout w)
    as (evs & w1 & Hpost & Hhist & _); [reflexivity|].
  fold (wait_for_prompt prompt timeout) in Hpost, Hhist. fold m in Hpost, Hhist.
  rewrite Hhist, received_history in Hn, Hvalid, Hin.
  destruct Hpost as (_ & _ & _ & Hr). simpl in Hr.
  apply str_in_firstn in Hin as Hall.
  destruct (fst (m w)) as [[|]|e|]; try contradiction; [reflexivity| |].
  - destruct Hr as (_ & [Hnil | Hnot] & _).
    + rewrite Hnil in Hn. simpl in Hn. lia.
    + simpl in Hnot. congruence.
  - destruct Hr as (_ & chunks & last & Hrecv & Hbad & _ & Hnot).
    rewrite Hrecv in Hn, Hvalid, Hin.
    destruct (Nat.le_gt_cases n (length chunks)) as [Hle | Hgt].
    + rewrite firstn_app in Hin.
      replace (n - length chunks)%nat with 0%nat in Hin by lia.
      simpl in Hin. rewrite app_nil_r in Hin.
      apply str_in_firstn in Hin.
      destruct Hnot as [-> | Hnot]; [simpl in Hle; lia|].
      simpl in Hnot. congruence.
    + rewrite firstn_all2 in Hvalid by (rewrite length_app; simpl; lia).
      apply Forall_app in Hvalid as [_ Hlast].
      inversion Hlast; subst. congruence.
Qed.

Lemma match_across_reads_witness :
  let m := wait_for_prompt PROMPT 30000 in
  Forall (fun c => str_in PROMPT c = false) (received (history m split_world))
  /\ fst (m split_world) = Return true.
Proof.
  intros m. split.
  - vm_compute. repeat constructor.
  - apply (match_across_reads PROMPT 30000 split_world 2).
    + vm_compute. lia.
    + vm_compute. repeat constructor.
    + vm_compute. reflexivity.
Defined.

(** C2, the claim as stated fails: the prompt is whole in the bytes
    read, but the read ends inside a multi-byte character, and the call
    raises instead of reporting a match.  The bytes that the channel
    delivers are valid UTF-8 as a whole. *)
Lemma match_across_reads_cex :
  let m := wait_for_prompt PROMPT DEFAULT_TIMEOUT_MS in
  received (history m torn_world)
  = [PROMPT +:+ " " +:+ String "226" (String "130" EmptyString)]
  /\ str_in PROMPT (cat (received (history m torn_world))) = true
  /\ utf8_valid (delivered torn_world 1) = true
  /\ fst (m torn_world) = Raise UnicodeDecodeError.
Proof. vm_compute. repeat split. Qed.

(** The result of the loop depends on the clock and the channel only. *)
Lemma poll_loop_same_channel (interval : Z) (prompt : string)
    (timeout start : Z) (fuel : nat) :
  forall (buffer : string) (w1 w2 : World),
    same_channel w1 w2 ->
    fst (poll_loop fuel interval prompt timeout start buffer w1)
    = fst (poll_loop fuel interval prompt timeout start buffer w2).
Proof.
  induction fuel as [|fuel IH]; intros buffer w1 w2 (Hc & Hi & Ha);
    [reflexivity|].
  rewrite !poll_loop_step, Hc, Hi.
  destruct (clock w2 - start <? timeout); [|reflexivity].
  destruct (is_empty (inbuf w2)) eqn:Hempty.
  - apply IH. unfold same_channel. simpl. rewrite ?Hc, ?Hi, ?Ha. auto.
  - cbv zeta. destruct (utf8_valid (take 1024 (inbuf w2))); [|reflexivity].
    destruct (str_in prompt (buffer +:+ take 1024 (inbuf w2))); [reflexivity|].
    apply IH. unfold same_channel, recv. rewrite ?Hi, Hempty. simpl.
    rewrite ?Hc, ?Hi, ?Ha. auto.
Qed.

Lemma wait_for_prompt_same_channel (prompt : string) (timeout : Z)
    (w1 w2 : World) :
  same_channel w1 w2 ->
  fst (wait_for_prompt prompt timeout w1) = fst (wait_for_prompt prompt timeout w2).
Proof.
  intros Hsame. unfold wait_for_prompt.
  rewrite !wait_for_prompt_every_unfold.
  pose proof (poll_loop_same_channel SLEEP_MS prompt timeout (clock w1)
                (poll_fuel SLEEP_MS timeout) EmptyString
                (emit (EvExpect prompt) w1) (emit (EvExpect prompt) w2)) as H.
  destruct Hsame as (Hc & Hi & Ha). rewrite <- Hc.
  destruct (poll_loop _ _ _ _ (clock w1) _ (emit _ w1)) as [r1 v1].
  destruct (poll_loop _ _ _ _ (clock w1) _ (emit _ w2)) as [r2 v2].
  simpl in H. rewrite <- H by (unfold same_channel; simpl; auto).
  destruct r1; reflexivity.
Qed.

(** C10: with a timeout that is not positive the loop body is never
    entered: the call returns [False], and nothing but the two ghost
    events distinguishes the world after from the world before. *)
Theorem nonpositive_timeout (prompt : string) (timeout : Z) (w : World) :
  timeout <= 0 ->
  wait_for_prompt prompt timeout w =
  (Return false,
   mkWorld (clock w) (inbuf w) (arrivals w) (environ w)
           (trace w ++ [EvExpect prompt; EvResult false])).
Proof.
  intros Ht. unfold wait_for_prompt.
  rewrite wait_for_prompt_every_unfold. unfold poll_fuel.
  rewrite Nat.add_comm. cbn [Nat.add]. rewrite poll_loop_step.
  cbn [emit clock]. replace (clock w - clock w <? timeout) with false.
  - unfold emit. simpl. now rewrite <- app_assoc.
  - symmetry. apply Z.ltb_ge. lia.
Qed.

Lemma nonpositive_timeout_witness :
  str_in "#" (inbuf ready_world) = true
  /\ fst (wait_for_prompt "#" 0 ready_world) = Return false
  /\ inbuf (snd (wait_for_prompt "#" 0 ready_world)) = inbuf ready_world
  /\ clock (snd (wait_for_prompt "#" 0 ready_world)) = clock ready_world.
Proof.
  rewrite (nonpositive_timeout "#" 0 ready_world); [|lia].
  repeat split.
Defined.

(** ** Rules for [post] *)

Section Rules.

Context {A B : Type}.

Lemma post_ret (a : A) (w : World) (Q : outcome A -> list event -> World -> Prop) :
  Q (Return a) [] w -> post (ret a) w Q.
Proof. intros HQ. exists []. simpl. now rewrite app_nil_r. Qed.

Lemma post_raise (e : exn) (w : World) (Q : outcome A -> list event -> World -> Prop) :
  Q (Raise e) [] w -> post (raise e) w Q.
Proof. intros HQ. exists []. simpl. now rewrite app_nil_r. Qed.

Lemma post_bind (m : M A) (k : A -> M B) (w : World)
    (Q : outcome B -> list event -> World -> Prop) :
  post m w (fun r sk w' =>
    match r with
    | Return a => post (k a) w' (fun r' sk' w'' => Q r' (sk ++ sk') w'')
    | Raise e => Q (Raise e) sk w'
    | Hang => Q Hang sk w'
    end) ->
  post (bind m k) w Q.
Proof.
  intros [evs [Htr HQ]]. unfold post, bind.
  destruct (m w) as [[a|e|] w'] eqn:Hm; simpl in *.
  - destruct HQ as [evs' [Htr' HQ']].
    exists (evs ++ evs'). rewrite Htr', Htr, <- app_assoc.
    split; [reflexivity|]. now rewrite skel_app.
  - exists evs. auto.
  - exists evs. auto.
Qed.

Lemma post_conseq (m : M A) (w : World)
    (Q Q' : outcome A -> list event -> World -> Prop) :
  post m w Q -> (forall r sk w', Q r sk w' -> Q' r sk w') -> post m w Q'.
Proof. intros [evs [Htr HQ]] Himp. exists evs. auto. Qed.

Lemma post_try_except (body : M A) (h1 : string -> M A) (h2 : exn -> M A)
    (w : World) (Q : outcome A -> list event -> World -> Prop) :
  post body w (fun r sk w' =>
    match r with
    | Raise (SSHException msg) =>
      post (h1 msg) w' (fun r' sk' w'' => Q r' (sk ++ sk') w'')
    | Raise (SystemExit code) => Q (Raise (SystemExit code)) sk w'
    | Raise e => post (h2 e) w' (fun r' sk' w'' => Q r' (sk ++ sk') w'')
    | _ => Q r sk w'
    end) ->
  post (try_except body h1 h2) w Q.
Proof.
  intros [evs [Htr HQ]]. unfold post, try_except.
  destruct (body w) as [[a|e|] w'] eqn:Hm; simpl in *;
    try (exists evs; auto; fail).
  destruct e; try (exists evs; auto; fail);
    destruct HQ as [evs' [Htr' HQ']];
    exists (evs ++ evs'); rewrite Htr', Htr, <- app_assoc;
    (split; [reflexivity|]); now rewrite skel_app.
Qed.

End Rules.

Lemma post_event (e : event) (w : World)
    (Q : outcome unit -> list event -> World -> Prop) :
  Q (Return tt) (skel [e]) (emit e w) -> post (do_event e) w Q.
Proof. intros HQ. exists [e]. auto. Qed.

Lemma post_load_str (G : gmap string pyobj) (x : string) (w : World)
    (Q : outcome string -> list event -> World -> Prop) :
  match G !! x with
  | Some v => Q (Return (format_obj v)) [] w
  | None => Q (Raise (NameError x)) [] w
  end ->
  post (load_str G x) w Q.
Proof.
  intros HQ. exists []. unfold load_str, load_name, bind.
  destruct (G !! x); simpl; now rewrite app_nil_r.
Qed.

(** The three ways a guarded wait can end. *)
Lemma post_expect_or_exit (prompt msg : string) (w : World)
    (Q : outcome unit -> list event -> World -> Prop) :
  (forall w', Q (Return tt) [EvExpect prompt; EvResult true] w') ->
  (forall w', Q (Raise (SystemExit 1))
                [EvExpect prompt; EvResult false; EvLog ERROR msg] w') ->
  (forall w', Q (Raise UnicodeDecodeError) [EvExpect prompt] w') ->
  post (expect_or_exit prompt msg) w Q.
Proof.
  intros Hmatch Htimeout Hraise.
  unfold expect_or_exit. apply post_bind.
  destruct (wait_for_prompt_every_spec SLEEP_MS prompt DEFAULT_TIMEOUT_MS w)
    as (evs & w1 & Hpost & _ & _ & _ & Htrace); [reflexivity|].
  fold (wait_for_prompt prompt DEFAULT_TIMEOUT_MS) in Hpost, Htrace.
  destruct Hpost as (_ & Hsk & _ & Hr).
  exists (EvExpect prompt :: evs ++ result_events
            (fst (wait_for_prompt prompt DEFAULT_TIMEOUT_MS w))).
  split; [exact Htrace|].
  change (EvExpect prompt :: ?l) with ([EvExpect prompt] ++ l).
  rewrite !skel_app, Hsk.
  destruct (fst (wait_for_prompt prompt DEFAULT_TIMEOUT_MS w))
    as [[|]|e|]; simpl in *.
  - apply post_ret. apply Hmatch.
  - apply post_bind, post_event. simpl. apply post_raise. apply Htimeout.
  - destruct Hr as [-> _]. apply Hraise.
  - contradiction.
Qed.

(** ** The menu dialogue *)

Ltac wp_step :=
  lazymatch goal with
  | |- post (bind (drive_menu _) _) _ _ => fail
  | |- post (bind (expect_or_exit _ _) _) _ _ => fail
  | |- post (bind _ _) _ _ => apply post_bind
  | |- post (ret _) _ _ => apply post_ret
  | |- post (raise _) _ _ => apply post_raise
  | |- post (sys_exit _) _ _ => apply post_raise
  | |- post (do_event _) _ _ => apply post_event
  | |- post (logging_info _) _ _ => apply post_event
  | |- post (logging_error _) _ _ => apply post_event
  | |- post (channel_send _) _ _ => apply post_event
  end; simpl.

Ltac wp_expect :=
  apply post_bind, post_expect_or_exit; intros ?w; simpl.

Ltac menu_leaf e :=
  exists e; split;
    [| split; [reflexivity
              | unfold menu_skeleton, steps_matched, step_events, commands;
                simpl; rewrite ?append_assoc; reflexivity]];
  simpl; eauto; try (split; [lia | intros; try discriminate; try lia; eauto]).

Lemma drive_menu_paths (G : gmap string pyobj) (w : World) :
  post (drive_menu G) w (fun r sk _ =>
    exists e, menu_ending_ok G e
              /\ r = menu_outcome e /\ sk = menu_skeleton (csv_of G) e).
Proof.
  unfold drive_menu, csv_of.
  wp_expect; [| menu_leaf (TimedOut 0) | menu_leaf (Garbled 0)].
  do 2 wp_step. do 2 wp_step.
  wp_expect; [| menu_leaf (TimedOut 1) | menu_leaf (Garbled 1)].
  do 2 wp_step.
  wp_expect; [| menu_leaf (TimedOut 2) | menu_leaf (Garbled 2)].
  wp_expect; [| menu_leaf (TimedOut 3) | menu_leaf (Garbled 3)].
  do 2 wp_step.
  wp_expect; [| menu_leaf (TimedOut 4) | menu_leaf (Garbled 4)].
  do 2 wp_step.
  apply post_bind, post_load_str.
  destruct (G !! "CSV_FILE") as [v|] eqn:HG; simpl; [| menu_leaf Unbound].
  do 2 wp_step.
  apply post_expect_or_exit; intros w'; simpl;
    [ menu_leaf Matched | menu_leaf (TimedOut 5) | menu_leaf (Garbled 5) ].
Qed.

(** ** ise-export-test.py as a whole *)

Lemma test_globals_host (env : Env) :
  IseExportTest.globals env !! "ISE_HOST" = Some (PyStr "1.2.3.4").
Proof. reflexivity. Qed.

Lemma test_globals_user (env : Env) :
  IseExportTest.globals env !! "ISE_USER" = Some (PyStr "iseadmin").
Proof. reflexivity. Qed.

Lemma test_globals_key (env : Env) :
  IseExportTest.globals env !! "ISE_KEY"
  = Some (PyStr (expanduser env "~/.ssh/ise")).
Proof. reflexivity. Qed.

Lemma test_globals_nfs (env : Env) :
  IseExportTest.globals env !! "NFS_PATH" = Some (PyStr "/home/nfsshare").
Proof. reflexivity. Qed.

Lemma test_globals_url (env : Env) :
  IseExportTest.globals env !! "PRESIGNED_URL"
  = Some (PyStr ("https://your-s3-bucket.s3.amazonaws.com/FullReport_"
                 +:+ today env +:+ ".csv?AWSAccessKeyId=...")).
Proof. reflexivity. Qed.

Lemma test_globals_csv (env : Env) :
  IseExportTest.globals env !! "CSV_FILE" = Some (PyStr (test_csv env)).
Proof. reflexivity. Qed.

Lemma export_globals_csv : IseExport.globals !! "CSV_FILE" = None.
Proof. reflexivity. Qed.

Lemma csv_of_test (env : Env) : csv_of (IseExportTest.globals env) = test_csv env.
Proof. unfold csv_of. now rewrite test_globals_csv. Qed.

Ltac wp_load :=
  lazymatch goal with
  | |- post (bind (load_str _ _) _) _ _ => apply post_bind, post_load_str
  | |- post (load_str _ _) _ _ => apply post_load_str
  end;
  rewrite ?test_globals_host, ?test_globals_user, ?test_globals_key,
    ?test_globals_nfs, ?test_globals_url, ?test_globals_csv,
    ?export_globals_csv;
  cbv beta iota.

Ltac wp := repeat first [ wp_step | wp_load ].

Ltac path_leaf p :=
  exists p; split;
    [ simpl; auto
    | split; [reflexivity
             | unfold skeleton_of, menu_skeleton, steps_matched, step_events,
                      commands, test_conn, test_upload, test_csv, test_file;
               simpl; rewrite ?append_assoc; reflexivity] ].

Ltac menu_path_leaf p :=
  exists p; split; [assumption|]; split; [reflexivity|];
  cbn [skeleton_of menu_outcome handler_line str_of_exn];
  unfold test_conn, test_csv, menu_skeleton; cbn [app];
  rewrite <- ?app_assoc, ?app_nil_r; reflexivity.

Ltac wp_handlers :=
  unfold on_ssh_exception, on_exception; wp.

Lemma test_main_paths (env : Env) (w : World) :
  post (IseExportTest.main env) w (fun r sk _ =>
    exists p, test_path_ok env p
              /\ r = outcome_of p
              /\ sk = skeleton_of (test_conn env) (test_csv env)
                                  (test_file env) (test_upload env) p).
Proof.
  unfold IseExportTest.main, IseExportTest.session.
  wp_step. wp_step. apply post_try_except.
  wp_load. wp_step. wp_step. wp_load. wp_load. wp_load.
  unfold ssh_connect. wp.
  destruct (connect_result env) as [ce|] eqn:Hconn.
  { wp_step. destruct ce; simpl; wp_handlers;
      [path_leaf (ConnectFailed (SshError msg))
      | path_leaf (ConnectFailed (OtherError msg))]. }
  wp. unfold invoke_shell. wp.
  destruct (shell_result env) as [se|] eqn:Hshell.
  { wp_step. destruct se; simpl; wp_handlers;
      [path_leaf (ShellFailed (SshError msg))
      | path_leaf (ShellFailed (OtherError msg))]. }
  wp. apply post_bind.
  eapply post_conseq; [apply drive_menu_paths|].
  intros r sk w' (e & Hok & -> & ->). rewrite csv_of_test.
  destruct e as [|k|k|]; cbn [menu_outcome menu_ending_ok] in Hok |- *;
    cbv beta iota.
  - (* the dialogue got through *)
    unfold close_connection. wp.
    unfold path_exists. wp.
    destruct (bool_decide _) eqn:Hfile.
    + apply bool_decide_eq_true in Hfile.
      change (test_file env ∈ files env) in Hfile.
      wp. unfold IseExportTest.os_system. wp.
      destruct (system_status env =? 0) eqn:Hstatus; simpl.
      * apply Z.eqb_eq in Hstatus. wp. path_leaf Uploaded.
      * apply Z.eqb_neq in Hstatus. wp. path_leaf UploadFailed.
    + apply bool_decide_eq_false in Hfile.
      change (test_file env ∉ files env) in Hfile.
      wp. path_leaf FileMissing.
  - destruct Hok as [Hk _]. menu_path_leaf (InMenu (TimedOut k)).
  - destruct Hok as [Hk _]. wp_handlers. menu_path_leaf (InMenu (Garbled k)).
  - rewrite test_globals_csv in Hok. discriminate.
Qed.

(** ** ise-export.py as a whole *)

Lemma post_pure {A} (m : M A) (a : A) (w w1 : World)
    (Q : outcome A -> list event -> World -> Prop) :
  m w = (Return a, w1) -> trace w1 = trace w ->
  Q (Return a) [] w1 -> post m w Q.
Proof.
  intros Hm Htr HQ. exists []. rewrite Hm. simpl.
  now rewrite app_nil_r.
Qed.

Lemma bind_return {A B} (m : M A) (k : A -> M B) (w w1 : World) (a : A) :
  m w = (Return a, w1) -> bind m k w = k a w1.
Proof. unfold bind. now intros ->. Qed.

Lemma bind_raise {A B} (m : M A) (k : A -> M B) (w w1 : World) (e : exn) :
  m w = (Raise e, w1) -> bind m k w = (Raise e, w1).
Proof. unfold bind. now intros ->. Qed.

(** The three ways [load_environment] goes: no file, a file that
    cannot be read, a file that is loaded. *)
Lemma load_environment_missing (env : Env) (env_name : option string)
    (w : World) :
  dotenv env !! env_file_of env env_name = None ->
  unreadable env !! env_file_of env env_name = None ->
  IseExport.load_environment env env_name w
  = (Raise (SystemExit 1),
     emit (EvLog ERROR ("Environment file not found: "
                        +:+ env_file_of env env_name)) w).
Proof.
  intros Hfile Hnone.
  unfold IseExport.load_environment, IseExport.env_file_exists. cbv zeta.
  rewrite Hfile, Hnone. reflexivity.
Qed.

Lemma load_environment_unreadable (env : Env) (env_name : option string)
    (msg : string) (w : World) :
  dotenv env !! env_file_of env env_name = None ->
  unreadable env !! env_file_of env env_name = Some msg ->
  IseExport.load_environment env env_name w = (Raise (OtherException msg), w).
Proof.
  intros Hfile Hbad.
  unfold IseExport.load_environment, IseExport.env_file_exists. cbv zeta.
  rewrite Hfile, Hbad. unfold bind, ret, IseExport.load_dotenv. cbn [negb].
  rewrite Hfile, Hbad. reflexivity.
Qed.

Lemma load_environment_found (env : Env) (env_name : option string)
    (bindings : gmap string string) (w : World) :
  dotenv env !! env_file_of env env_name = Some bindings ->
  IseExport.load_environment env env_name w
  = (Return tt,
     emit (EvLog INFO ("Loaded environment from " +:+ env_file_of env env_name))
          (mkWorld (clock w) (inbuf w) (arrivals w) (environ w ∪ bindings)
                   (trace w))).
Proof.
  intros Hfile.
  unfold IseExport.load_environment, IseExport.env_file_exists. cbv zeta.
  rewrite Hfile. unfold bind, ret, IseExport.load_dotenv. cbn [negb].
  rewrite Hfile. reflexivity.
Qed.

Lemma load_environment_spec (env : Env) (name : option string) (w : World) :
  post (IseExport.load_environment env name) w (fun r sk _ =>
    (r = Return tt /\ sk = [])
    \/ (exists msg, r = Raise (SystemExit 1) /\ sk = [EvLog ERROR msg])
    \/ (exists msg, r = Raise (OtherException msg) /\ sk = [])).
Proof.
  unfold post.
  destruct (dotenv env !! env_file_of env name) as [bindings|] eqn:Hfile.
  - rewrite (load_environment_found _ _ _ w Hfile).
    eexists [_]. split; [reflexivity|]. left. split; reflexivity.
  - destruct (unreadable env !! env_file_of env name) as [msg|] eqn:Hbad.
    + rewrite (load_environment_unreadable _ _ _ w Hfile Hbad).
      exists []. split; [cbn [snd]; now rewrite app_nil_r|].
      right. right. eauto.
    + rewrite (load_environment_missing _ _ w Hfile Hbad).
      eexists [_]. split; [reflexivity|]. right. left. eauto.
Qed.

Lemma get_config_loop_spec (vars : list string) :
  forall (config : gmap string string) (missing : list string) (w : World),
    post (IseExport.get_config_loop vars config missing) w (fun r sk w' =>
      sk = [] /\ environ w' = environ w /\ exists cm, r = Return cm).
Proof.
  induction vars as [|var vars IH]; intros config missing w.
  - simpl. apply post_ret. eauto.
  - cbn [IseExport.get_config_loop]. apply post_bind.
    eapply (post_pure _ (environ w !! var)); [reflexivity | reflexivity |].
    eapply post_conseq; [apply IH|].
    intros r sk w' (-> & Henv & cm & ->). eauto.
Qed.

Lemma get_config_spec (w : World) :
  post IseExport.get_config w (fun r sk _ =>
    (sk = [] /\ exists config, r = Return config)
    \/ exists msg, r = Raise (SystemExit 1) /\ sk = [EvLog ERROR msg]).
Proof.
  unfold IseExport.get_config. apply post_bind.
  eapply post_conseq; [apply get_config_loop_spec|].
  intros r sk w' (-> & _ & [config missing] & ->). cbv beta iota.
  destruct missing as [|var missing].
  - apply post_bind.
    eapply (post_pure _ (environ w' !! "S3_PREFIX"));
      [reflexivity | reflexivity |].
    apply post_ret. left. eauto.
  - wp_step. wp_step. wp_step. right. eauto.
Qed.

Lemma check_aws_credentials_spec (env : Env) (w : World) :
  post (IseExport.check_aws_credentials env) w (fun r sk _ =>
    (r = Return true /\ sk = [])
    \/ exists msg, r = Return false /\ sk = [EvLog ERROR msg]).
Proof.
  unfold IseExport.check_aws_credentials.
  destruct (aws_credentials env).
  - wp_step. now left.
  - wp_step. wp_step. wp_step. right. eauto.
  - wp_step. wp_step. wp_step. right. eauto.
Qed.

Lemma csv_of_export : csv_of IseExport.globals = EmptyString.
Proof. reflexivity. Qed.

Lemma export_main_paths (env : Env) (w : World) :
  post (IseExport.main env) w (fun r sk _ =>
    exists p conn,
      (exists host user key, conn = EvConnect host user key)
      /\ export_path_ok p
      /\ r = outcome_of p
      /\ sk = skeleton_of conn EmptyString EmptyString conn p).
Proof.
  unfold IseExport.main.
  apply post_bind.
  eapply post_conseq; [apply load_environment_spec|].
  intros r sk w1 [[-> ->] | [(msg & -> & ->) | (msg & -> & ->)]];
    cbv beta iota;
    [| exists (EarlyExit msg), (EvConnect EmptyString EmptyString EmptyString);
       repeat split; eauto
     | exists (Uncaught (OtherException msg)),
              (EvConnect EmptyString EmptyString EmptyString);
       repeat split; eauto ].
  apply post_bind.
  eapply post_conseq; [apply get_config_spec|].
  intros r sk w2 [(-> & config & ->) | (msg & -> & ->)]; cbv beta iota;
    [| exists (EarlyExit msg), (EvConnect EmptyString EmptyString EmptyString); repeat split; eauto ].
  wp_step. wp_step. apply post_bind.
  eapply post_conseq; [apply check_aws_credentials_spec|].
  intros r sk w3 [[-> ->] | (msg & -> & ->)]; cbv beta iota; simpl.
  2:{ wp_step. wp_step.
      exists (EarlyExit msg), (EvConnect EmptyString EmptyString EmptyString); repeat split; eauto. }
  wp_step. wp_step.
  apply post_try_except. unfold IseExport.session.
  wp_step. wp_step. apply post_bind.
  eapply (post_pure _ (expand (userhome_of env (environ w3)) (passwd env)
                              (IseExport.item config "ISE_KEY")));
    [reflexivity | reflexivity |].
  unfold ssh_connect. wp.
  set (conn := EvConnect _ _ _).
  destruct (connect_result env) as [ce|] eqn:Hconn.
  { wp_step. destruct ce; simpl; wp_handlers;
      [ exists (ConnectFailed (SshError msg)), conn
      | exists (ConnectFailed (OtherError msg)), conn ];
      repeat split; subst conn; eauto. }
  wp. unfold invoke_shell. wp.
  destruct (shell_result env) as [se|] eqn:Hshell.
  { wp_step. destruct se; simpl; wp_handlers;
      [ exists (ShellFailed (SshError msg)), conn
      | exists (ShellFailed (OtherError msg)), conn ];
      repeat split; subst conn; eauto. }
  wp. apply post_bind.
  eapply post_conseq; [apply drive_menu_paths|].
  intros r sk w' (e & Hok & -> & ->). rewrite csv_of_export.
  destruct e as [|k|k|]; cbn [menu_outcome menu_ending_ok] in Hok |- *;
    cbv beta iota.
  - rewrite export_globals_csv in Hok. destruct Hok; discriminate.
  - destruct Hok as [Hk Hlast].
    assert (Hk5 : (k < 5)%nat).
    { destruct (Nat.eq_dec k 5%nat) as [->|]; [|lia].
      rewrite export_globals_csv in Hlast.
      destruct (Hlast eq_refl); discriminate. }
    exists (InMenu (TimedOut k)), conn.
    split; [subst conn; eauto|]. split; [exact Hk5|].
    split; [reflexivity|].
    cbn [skeleton_of menu_outcome]. unfold menu_skeleton. cbn [app].
    rewrite <- ?app_assoc, ?app_nil_r. reflexivity.
  - destruct Hok as [Hk Hlast].
    assert (Hk5 : (k < 5)%nat).
    { destruct (Nat.eq_dec k 5%nat) as [->|]; [|lia].
      rewrite export_globals_csv in Hlast.
      destruct (Hlast eq_refl); discriminate. }
    wp_handlers.
    exists (InMenu (Garbled k)), conn.
    split; [subst conn; eauto|]. split; [exact Hk5|].
    split; [reflexivity|].
    cbn [skeleton_of menu_outcome handler_line str_of_exn].
    unfold menu_skeleton. cbn [app].
    rewrite <- ?app_assoc, ?app_nil_r. reflexivity.
  - wp_handlers.
    exists (InMenu Unbound), conn.
    split; [subst conn; eauto|]. split; [exact I|].
    split; [reflexivity|]. reflexivity.
Qed.

(** ** What a whole run looks like *)

Lemma post_run {A} (m : M A) (w : World)
    (Q : outcome A -> list event -> World -> Prop) :
  post m w Q -> Q (fst (m w)) (skel (history m w)) (snd (m w)).
Proof.
  intros (evs & Htrace & HQ). now rewrite (history_app _ _ _ Htrace).
Qed.

Lemma test_main_run (env : Env) (w : World) :
  exists p,
    test_path_ok env p
    /\ fst (IseExportTest.main env w) = outcome_of p
    /\ skel (history (IseExportTest.main env) w)
       = skeleton_of (test_conn env) (test_csv env) (test_file env)
                     (test_upload env) p.
Proof. exact (post_run _ _ _ (test_main_paths env w)). Qed.

Lemma export_main_run (env : Env) (w : World) :
  exists p host user key,
    export_path_ok p
    /\ fst (IseExport.main env w) = outcome_of p
    /\ skel (history (IseExport.main env) w)
       = skeleton_of (EvConnect host user key) EmptyString EmptyString
                     (EvConnect host user key) p.
Proof.
  destruct (post_run _ _ _ (export_main_paths env w))
    as (p & conn & (host & user & key & ->) & Hok & Hr & Hsk).
  now exists p, host, user, key.
Qed.

Lemma drive_menu_run (G : gmap string pyobj) (w : World) :
  exists e,
    menu_ending_ok G e
    /\ fst (drive_menu G w) = menu_outcome e
    /\ skel (history (drive_menu G) w) = menu_skeleton (csv_of G) e.
Proof. exact (post_run _ _ _ (drive_menu_paths G w)). Qed.

(** The views of a history look at its skeleton only. *)
Lemma results_skel (h : list event) : results (skel h) = results h.
Proof.
  induction h as [|e h IH]; [reflexivity|].
  destruct e as [[] ?| | | | | | | | | | |]; unfold results, skel in *; simpl;
    rewrite ?IH; reflexivity.
Qed.

Lemma sent_skel (h : list event) : sent (skel h) = sent h.
Proof.
  induction h as [|e h IH]; [reflexivity|].
  destruct e as [[] ?| | | | | | | | | | |]; unfold sent, skel in *; simpl;
    rewrite ?IH; reflexivity.
Qed.

Lemma errors_skel (h : list event) : errors (skel h) = errors h.
Proof.
  induction h as [|e h IH]; [reflexivity|].
  destruct e as [[] ?| | | | | | | | | | |]; unfold errors, skel in *; simpl;
    rewrite ?IH; reflexivity.
Qed.

Lemma expects_skel (h : list event) : expects (skel h) = expects h.
Proof.
  induction h as [|e h IH]; [reflexivity|].
  destruct e as [[] ?| | | | | | | | | | |]; unfold expects, skel in *; simpl;
    rewrite ?IH; reflexivity.
Qed.

Lemma closes_skel (h : list event) : closes (skel h) = closes h.
Proof.
  induction h as [|e h IH]; [reflexivity|].
  destruct e as [[] ?| | | | | | | | | | |]; unfold closes, skel in *; simpl;
    rewrite ?IH; reflexivity.
Qed.

Lemma uploads_skel (h : list event) : uploads (skel h) = uploads h.
Proof.
  induction h as [|e h IH]; [reflexivity|].
  destruct e as [[] ?| | | | | | | | | | |]; unfold uploads, skel in *; simpl;
    rewrite ?IH; reflexivity.
Qed.

(** A step number below six is one of six. *)
Ltac six k H :=
  let Hc := fresh "Hc" in
  assert (Hc : k = 0%nat \/ k = 1%nat \/ k = 2%nat \/ k = 3%nat
               \/ k = 4%nat \/ k = 5%nat) by lia;
  destruct Hc as [->|[->|[->|[->|[->| ->]]]]]; try (exfalso; lia); clear H.

(** The paths of a run, one goal each, with the step numbers explicit. *)
Ltac each_path p Hok :=
  let j := fresh "j" in
  destruct p as [?|[?|?]|[?|?]|[|j|j|]| | | |[?|?|?| |?]];
  cbn [test_path_ok export_path_ok] in Hok; try (exfalso; exact Hok);
  try six j Hok.

(** Bring the views of the history [h], known by its skeleton, to the
    views of that skeleton. *)
Ltac by_skeleton h Hsk :=
  let x := fresh "h" in
  set (x := h) in *; clearbody x;
  rewrite <- ?(results_skel x), <- ?(sent_skel x), <- ?(errors_skel x),
    <- ?(expects_skel x), <- ?(closes_skel x), <- ?(uploads_skel x);
  rewrite ?Hsk; clear Hsk.

(** Pin down an index into an explicit list. *)
Ltac pin k H :=
  repeat (destruct k as [|k]; simpl in H; try discriminate H).

(** Evaluate the views of an explicit skeleton. *)
Ltac views_in H :=
  repeat match type of H with
  | context [results ?l] => let x := eval vm_compute in (results l) in
                            change (results l) with x in H
  end.

Lemma stops_at_test (env : Env) (w : World) (k : nat) :
  nth_error (results (history (IseExportTest.main env) w)) k = Some false ->
  stops_at (test_csv env) k (history (IseExportTest.main env) w)
           (fst (IseExportTest.main env w)).
Proof.
  intros Hk. unfold stops_at.
  destruct (test_main_run env w) as (p & Hok & Hr & Hsk).
  rewrite Hr. revert Hk.
  by_skeleton (history (IseExportTest.main env) w) Hsk. intros Hk.
  each_path p Hok; views_in Hk; pin k Hk;
    (eexists; split; [reflexivity|]); repeat split; vm_compute; reflexivity.
Qed.

Lemma stops_at_export (env : Env) (w : World) (k : nat) (csv : string) :
  nth_error (results (history (IseExport.main env) w)) k = Some false ->
  stops_at csv k (history (IseExport.main env) w)
           (fst (IseExport.main env w)).
Proof.
  intros Hk. unfold stops_at.
  destruct (export_main_run env w) as (p & host & user & key & Hok & Hr & Hsk).
  rewrite Hr. revert Hk.
  by_skeleton (history (IseExport.main env) w) Hsk. intros Hk.
  each_path p Hok; views_in Hk; pin k Hk;
    (eexists; split; [reflexivity|]); repeat split; vm_compute; reflexivity.
Qed.

(** C3: both scripts stop at the first wait that returns [False].  When
    the wait of step [k] (counted from 0) returns [False], it is the
    last wait of the run and the waits before it returned [True]; the
    markers waited for and the commands sent are those of the steps up
    to [k] and no others; the one error logged is the timeout message
    of step [k]; and the process leaves with status 1.  In particular,
    when the wait for the completion of the report (step 3) returns
    [False], the two commands sent are those that open the menu and
    select the report, and the copy command is not among them. *)
Theorem fail_fast (env : Env) (w : World) :
  let test := IseExportTest.main env in
  let export := IseExport.main env in
  (forall k, nth_error (results (history test w)) k = Some false ->
             stops_at (test_csv env) k (history test w) (fst (test w)))
  /\ (forall k csv, nth_error (results (history export w)) k = Some false ->
                    stops_at csv k (history export w) (fst (export w)))
  /\ (nth_error (results (history test w)) 3 = Some false ->
      sent (history test w) = ["application configure ise" +:+ NL; "16" +:+ NL])
  /\ (nth_error (results (history export w)) 3 = Some false ->
      sent (history export w) = ["application configure ise" +:+ NL; "16" +:+ NL]).
Proof.
  intros test export. subst test export. repeat split.
  - intros k. apply stops_at_test.
  - intros k csv. apply stops_at_export.
  - intros H3. destruct (stops_at_test env w 3 H3) as (s & _ & _ & _ & -> & _).
    reflexivity.
  - intros H3.
    destruct (stops_at_export env w 3 EmptyString H3) as (s & _ & _ & _ & -> & _).
    reflexivity.
Qed.

Lemma fail_fast_witness :
  stops_at (test_csv lab_env) 3
           (history (IseExportTest.main lab_env) stalled_world)
           (fst (IseExportTest.main lab_env stalled_world))
  /\ sent (history (IseExport.main lab_env) stalled_world)
     = ["application configure ise" +:+ NL; "16" +:+ NL].
Proof.
  split.
  - apply (proj1 (fail_fast lab_env stalled_world) 3%nat).
    vm_compute. reflexivity.
  - apply (proj2 (proj2 (proj2 (fail_fast lab_env stalled_world)))).
    vm_compute. reflexivity.
Defined.

(** C7: in ise-export-test.py, when all six waits returned [True] and
    the report is not on the share, the one error logged is the
    file-not-found line, [os.system] is not called, and the process
    leaves with status 1.  The process leaves with status 0 only when
    all six waits returned [True], the file is there and the upload
    command returned 0, and nothing was logged as an error; otherwise
    with status 1.  ise-export.py never gets as far as the upload and
    never leaves with status 0. *)
Theorem missing_file_is_reported (env : Env) (w : World) :
  let test := IseExportTest.main env in
  let export := IseExport.main env in
  (results (history test w) = List.repeat true 6 ->
   test_file env ∉ files env ->
   errors (history test w) = ["File not found: " +:+ test_file env]
   /\ uploads (history test w) = []
   /\ exit_status (fst (test w)) = Some 1)
  /\ (exit_status (fst (test w)) = Some 0 ->
      results (history test w) = List.repeat true 6
      /\ test_file env ∈ files env
      /\ uploads (history test w) = [test_upload env]
      /\ system_status env = 0
      /\ errors (history test w) = [])
  /\ (exit_status (fst (test w)) = Some 0
      \/ exit_status (fst (test w)) = Some 1)
  /\ uploads (history export w) = []
  /\ exit_status (fst (export w)) = Some 1.
Proof.
  intros test export. subst test export.
  destruct (test_main_run env w) as (p & Hok & Hr & Hsk).
  destruct (export_main_run env w) as (q & host & user & key & Hqok & Hqr & Hqsk).
  rewrite Hr, Hqr.
  by_skeleton (history (IseExportTest.main env) w) Hsk.
  by_skeleton (history (IseExport.main env) w) Hqsk.
  split; [|split; [|split; [|split]]].
  - intros Hall Hmiss.
    each_path p Hok; vm_compute in Hall; try discriminate Hall.
    + repeat split; vm_compute; reflexivity.
    + destruct Hok as [Hin _]. contradiction.
    + destruct Hok as [Hin _]. contradiction.
  - intros Hzero. each_path p Hok; try discriminate Hzero.
    destruct Hok as [Hin Hstatus].
    repeat split; try assumption; vm_compute; reflexivity.
  - each_path p Hok; first [left; reflexivity | right; reflexivity].
  - each_path q Hqok; vm_compute; reflexivity.
  - each_path q Hqok; reflexivity.
Qed.

Lemma missing_file_is_reported_witness :
  errors (history (IseExportTest.main lab_env) smooth_world)
  = ["File not found: /home/nfsshare/FullReport_04-Nov-2026.csv"]
  /\ uploads (history (IseExportTest.main lab_env) smooth_world) = []
  /\ system_status stocked_env = 0.
Proof.
  destruct (missing_file_is_reported lab_env smooth_world) as (Hmiss & _).
  destruct (missing_file_is_reported stocked_env smooth_world) as (_ & Hzero & _).
  destruct Hmiss as (He & Hu & _);
    [ vm_compute; reflexivity
    | apply (bool_decide_eq_false_1 (test_file lab_env ∈ files lab_env));
      vm_compute; reflexivity |].
  destruct Hzero as (_ & _ & _ & Hs & _); [vm_compute; reflexivity|].
  repeat split; assumption.
Defined.

(** *** The order of sends and waits *)







(** *** The name [CSV_FILE] *)

(** C9: ise-export.py has no module-level binding of [CSV_FILE], and
    ise-export-test.py has one.  In ise-export.py, when the first five
    waits return [True] the dialogue raises [NameError] where the copy
    command is built; the run then logs that error and nothing else as
    an error, has sent the commands of the first five steps and no copy
    command, and has not uploaded anything.  No run has more than five
    waits, and every run leaves with status 1. *)
Theorem csv_file_is_not_defined (env : Env) (w : World) :
  let export := IseExport.main env in
  IseExport.globals !! "CSV_FILE" = None
  /\ IseExportTest.globals env !! "CSV_FILE"
     = Some (PyStr ("FullReport_" +:+ today env +:+ ".csv"))
  /\ (results (history (drive_menu IseExport.globals) w) = List.repeat true 5 ->
      fst (drive_menu IseExport.globals w) = Raise (NameError "CSV_FILE"))
  /\ (results (history export w) = List.repeat true 5 ->
      errors (history export w)
      = ["An error occurred: name 'CSV_FILE' is not defined"]
      /\ sent (history export w)
         = ["application configure ise" +:+ NL; "16" +:+ NL; "0" +:+ NL]
      /\ uploads (history export w) = [])
  /\ (length (results (history export w)) <= 5)%nat
  /\ exit_status (fst (export w)) = Some 1.
Proof.
  intros export. subst export.
  split; [reflexivity|]. split; [reflexivity|]. split.
  { destruct (drive_menu_run IseExport.globals w) as (e & Hok & -> & Hsk).
    by_skeleton (history (drive_menu IseExport.globals) w) Hsk.
    rewrite csv_of_export. intros Hall.
    destruct e as [|k|k|]; cbn [menu_ending_ok] in Hok.
    - destruct Hok as [v Hv]. rewrite export_globals_csv in Hv. discriminate Hv.
    - destruct Hok as [Hk Hcsv].
      assert (Hc : k = 0%nat \/ k = 1%nat \/ k = 2%nat \/ k = 3%nat
                   \/ k = 4%nat \/ k = 5%nat) by lia.
      destruct Hc as [->|[->|[->|[->|[->| ->]]]]];
        vm_compute in Hall; discriminate Hall.
    - destruct Hok as [Hk Hcsv].
      assert (Hc : k = 0%nat \/ k = 1%nat \/ k = 2%nat \/ k = 3%nat
                   \/ k = 4%nat \/ k = 5%nat) by lia.
      destruct Hc as [->|[->|[->|[->|[->| ->]]]]];
        try (vm_compute in Hall; discriminate Hall).
      destruct (Hcsv eq_refl) as [v Hv].
      rewrite export_globals_csv in Hv. discriminate Hv.
    - reflexivity. }
  destruct (export_main_run env w) as (p & host & user & key & Hok & Hr & Hsk).
  rewrite Hr.
  by_skeleton (history (IseExport.main env) w) Hsk.
  split; [|split].
  - intros Hall.
    each_path p Hok; vm_compute in Hall; try discriminate Hall.
    repeat split; vm_compute; reflexivity.
  - each_path p Hok; vm_compute; lia.
  - each_path p Hok; reflexivity.
Qed.

Lemma csv_file_is_not_defined_witness :
  fst (drive_menu IseExport.globals smooth_world) = Raise (NameError "CSV_FILE")
  /\ errors (history (IseExport.main lab_env) smooth_world)
     = ["An error occurred: name 'CSV_FILE' is not defined"].
Proof.
  destruct (csv_file_is_not_defined lab_env smooth_world)
    as (_ & _ & Hmenu & Hmain & _).
  split.
  - apply Hmenu. vm_compute. reflexivity.
  - apply Hmain. vm_compute. reflexivity.
Defined.

(** * Further properties *)

(** ** Configuration (ise-export.py 47-93) *)

(** The loop of [get_config]: it reads and does nothing else; it adds
    to [missing_vars] the variables that are unset or empty, in order,
    and stores the values that are set. *)
Lemma get_config_loop_run (vars : list string) :
  forall (config : gmap string string) (missing : list string) (w : World),
  exists config',
    IseExport.get_config_loop vars config missing w
    = (Return (config',
               missing ++ List.filter (fun var => IseExport.falsy (environ w !! var)) vars),
       w)
    /\ forall k, config' !! k
                 = match (if bool_decide (k ∈ vars) then environ w !! k else None) with
                   | Some s => Some s
                   | None => config !! k
                   end.
Proof.
  induction vars as [|var vars IH]; intros config missing w.
  - exists config. split; [simpl; now rewrite app_nil_r|].
    intros k. rewrite bool_decide_eq_false_2; [reflexivity|]. apply not_elem_of_nil.
  - cbn [IseExport.get_config_loop]. unfold bind, IseExport.os_getenv.
    cbv beta iota.
    set (config1 := match environ w !! var with
                    | Some s => <[var:=s]> config
                    | None => config
                    end).
    set (missing1 := if IseExport.falsy (environ w !! var)
                     then missing ++ [var] else missing).
    destruct (IH config1 missing1 w) as (config' & Hrun & Hlook).
    exists config'. split.
    + rewrite Hrun. do 2 f_equal. subst missing1. cbn [List.filter].
      destruct (IseExport.falsy (environ w !! var));
        [now rewrite <- app_assoc | reflexivity].
    + intros k. rewrite Hlook. subst config1.
      destruct (decide (k = var)) as [->|Hne].
      * rewrite (bool_decide_eq_true_2 (var ∈ var :: vars)) by apply list_elem_of_here.
        destruct (bool_decide (var ∈ vars)).
        -- destruct (environ w !! var); reflexivity.
        -- destruct (environ w !! var) as [s|]; [|reflexivity].
           apply lookup_insert_eq.
      * assert (Hk : bool_decide (k ∈ var :: vars) = bool_decide (k ∈ vars)).
        { apply bool_decide_ext. rewrite elem_of_cons. tauto. }
        rewrite Hk.
        assert (Hc : match environ w !! var with
                     | Some s => <[var:=s]> config
                     | None => config
                     end !! k = config !! k).
        { destruct (environ w !! var) as [s|]; [|reflexivity].
          apply lookup_insert_ne. congruence. }
        now rewrite Hc.
Qed.

Lemma filter_nil_iff {A} (f : A -> bool) (l : list A) :
  List.filter f l = [] <-> forall x, In x l -> f x = false.
Proof.
  induction l as [|a l IH]; simpl; [tauto|].
  destruct (f a) eqn:Hfa.
  - split; [discriminate|]. intros H. specialize (H a (or_introl eq_refl)).
    congruence.
  - rewrite IH. split.
    + intros H x [<-|Hx]; auto.
    + intros H x Hx. apply H. now right.
Qed.

Lemma falsy_true (v : option string) :
  IseExport.falsy v = true <-> v = None \/ v = Some EmptyString.
Proof.
  destruct v as [[|c s]|]; simpl; split; intros H; auto; try discriminate;
    destruct H as [H|H]; discriminate.
Qed.

Lemma falsy_false (v : option string) :
  IseExport.falsy v = false <-> exists s, v = Some s /\ s <> EmptyString.
Proof.
  destruct v as [[|c s]|]; simpl; split; try discriminate; auto.
  - intros (s & [= <-] & Hs). now destruct Hs.
  - intros _. exists (String c s). split; [reflexivity|discriminate].
  - intros (s & Hs & _). discriminate.
Qed.

Lemma in_missing_of (E : gmap string string) (var : string) :
  In var (missing_of E)
  <-> In var IseExport.required_vars
      /\ (E !! var = None \/ E !! var = Some EmptyString).
Proof. unfold missing_of. now rewrite filter_In, falsy_true. Qed.

(** [get_config] when a required variable is unset or empty. *)
Lemma get_config_run_missing (w : World) :
  missing_of (environ w) <> [] ->
  IseExport.get_config w
  = (Raise (SystemExit 1),
     emit (EvLog ERROR ("Missing required environment variables: "
                        +:+ join ", " (missing_of (environ w)))) w)
  /\ (forall var,
        In var (missing_of (environ w))
        <-> In var IseExport.required_vars
            /\ (environ w !! var = None \/ environ w !! var = Some EmptyString)).
Proof.
  intros Hmissing. split; [|intros var; apply in_missing_of].
  unfold IseExport.get_config, bind.
  destruct (get_config_loop_run IseExport.required_vars ∅ [] w)
    as (config & -> & _).
  cbn [app]. fold (missing_of (environ w)).
  destruct (missing_of (environ w)) as [|var vars]; [congruence|].
  reflexivity.
Qed.

(** X1: [get_config] when something is missing: one error line that names
    the required variables that are unset or empty, in the order of
    [required_vars], separated by a comma and a space, and
    [sys.exit(1)]; the environment is only read. *)
Theorem get_config_missing (w : World) :
  missing_of (environ w) <> [] ->
  IseExport.get_config w
  = (Raise (SystemExit 1),
     emit (EvLog ERROR ("Missing required environment variables: "
                        +:+ join ", " (missing_of (environ w)))) w)
  /\ (forall var,
        In var (missing_of (environ w))
        <-> In var IseExport.required_vars
            /\ (environ w !! var = None \/ environ w !! var = Some EmptyString)).
Proof.
  intros Hmissing. split; [|intros var; apply in_missing_of].
  unfold IseExport.get_config, bind.
  destruct (get_config_loop_run IseExport.required_vars ∅ [] w)
    as (config & -> & _).
  cbn [app]. fold (missing_of (environ w)).
  destruct (missing_of (environ w)) as [|var vars]; [congruence|].
  reflexivity.
Qed.

Lemma get_config_missing_witness :
  IseExport.get_config half_configured_world
  = (Raise (SystemExit 1),
     emit (EvLog ERROR "Missing required environment variables: ISE_KEY, S3_BUCKET")
          half_configured_world).
Proof.
  destruct (get_config_missing half_configured_world) as [Hrun _].
  - vm_compute. discriminate.
  - rewrite Hrun. vm_compute. reflexivity.
Defined.

(** [get_config] when nothing is missing. *)
Lemma get_config_run_complete (w : World) :
  missing_of (environ w) = [] ->
  exists config,
    IseExport.get_config w = (Return config, w)
    /\ (forall var, In var IseExport.required_vars ->
          exists s, s <> EmptyString /\ environ w !! var = Some s
                    /\ config !! var = Some s)
    /\ config !! "S3_PREFIX"
       = Some (default "ise-reports/" (environ w !! "S3_PREFIX"))
    /\ (forall k, ~ In k IseExport.required_vars -> k <> "S3_PREFIX" ->
          config !! k = None).
Proof.
  intros Hnone.
  unfold IseExport.get_config, bind.
  destruct (get_config_loop_run IseExport.required_vars ∅ [] w)
    as (config & -> & Hlook).
  cbn [app]. fold (missing_of (environ w)). rewrite Hnone.
  unfold IseExport.os_getenv, ret.
  eexists. split; [reflexivity|]. split; [|split].
  - intros var Hin.
    assert (Hvar : var <> "S3_PREFIX").
    { intros ->. simpl in Hin. intuition discriminate. }
    unfold missing_of in Hnone. rewrite filter_nil_iff in Hnone.
    destruct (proj1 (falsy_false _) (Hnone var Hin)) as (s & Hs & Hne).
    exists s. split; [exact Hne|]. split; [exact Hs|].
    rewrite lookup_insert_ne by congruence. rewrite Hlook.
    rewrite bool_decide_eq_true_2 by now apply list_elem_of_In.
    now rewrite Hs.
  - apply lookup_insert_eq.
  - intros k Hk Hprefix.
    rewrite lookup_insert_ne by congruence. rewrite Hlook.
    rewrite bool_decide_eq_false_2; [apply lookup_empty|].
    now rewrite list_elem_of_In.
Qed.

(** X2: [get_config] when the six required variables are set and not
    empty: it returns without logging and without changing anything;
    the dictionary holds each required variable with its value,
    [S3_PREFIX] with its value or ['ise-reports/'] when it is not set
    (an empty value is kept), and no other key. *)
Theorem get_config_complete (w : World) :
  missing_of (environ w) = [] ->
  exists config,
    IseExport.get_config w = (Return config, w)
    /\ (forall var, In var IseExport.required_vars ->
          exists s, s <> EmptyString /\ environ w !! var = Some s
                    /\ config !! var = Some s)
    /\ config !! "S3_PREFIX"
       = Some (default "ise-reports/" (environ w !! "S3_PREFIX"))
    /\ (forall k, ~ In k IseExport.required_vars -> k <> "S3_PREFIX" ->
          config !! k = None).
Proof.
  intros Hnone.
  unfold IseExport.get_config, bind.
  destruct (get_config_loop_run IseExport.required_vars ∅ [] w)
    as (config & -> & Hlook).
  cbn [app]. fold (missing_of (environ w)). rewrite Hnone.
  unfold IseExport.os_getenv, ret.
  eexists. split; [reflexivity|]. split; [|split].
  - intros var Hin.
    assert (Hvar : var <> "S3_PREFIX").
    { intros ->. simpl in Hin. intuition discriminate. }
    unfold missing_of in Hnone. rewrite filter_nil_iff in Hnone.
    destruct (proj1 (falsy_false _) (Hnone var Hin)) as (s & Hs & Hne).
    exists s. split; [exact Hne|]. split; [exact Hs|].
    rewrite lookup_insert_ne by congruence. rewrite Hlook.
    rewrite bool_decide_eq_true_2 by now apply list_elem_of_In.
    now rewrite Hs.
  - apply lookup_insert_eq.
  - intros k Hk Hprefix.
    rewrite lookup_insert_ne by congruence. rewrite Hlook.
    rewrite bool_decide_eq_false_2; [apply lookup_empty|].
    now rewrite list_elem_of_In.
Qed.

Lemma get_config_complete_witness :
  exists config,
    IseExport.get_config configured_world = (Return config, configured_world)
    /\ config !! "ISE_HOST" = Some "10.0.0.5"
    /\ config !! "S3_PREFIX" = Some "ise-reports/".
Proof.
  destruct (get_config_complete configured_world)
    as (config & Hrun & Hreq & Hprefix & _).
  - vm_compute. reflexivity.
  - exists config. split; [exact Hrun|]. split; [|exact Hprefix].
    destruct (Hreq "ISE_HOST") as (s & _ & Hs & ->); [simpl; auto|].
    rewrite <- Hs. vm_compute. reflexivity.
Defined.

(** [load_environment] when the file exists. *)
Lemma load_environment_run (env : Env)
    (env_name : option string) (bindings : gmap string string) (w : World) :
  dotenv env !! env_file_of env env_name = Some bindings ->
  exists w',
    IseExport.load_environment env env_name w = (Return tt, w')
    /\ (forall var,
          environ w' !! var
          = match environ w !! var with
            | Some value => Some value
            | None => bindings !! var
            end)
    /\ same_channel w w'
    /\ trace w'
       = trace w ++ [EvLog INFO ("Loaded environment from "
                                 +:+ env_file_of env env_name)].
Proof.
  intros Hfile. rewrite (load_environment_found _ _ _ w Hfile).
  eexists. split; [reflexivity|]. split; [|split].
  - intros var. simpl. rewrite lookup_union.
    destruct (environ w !! var), (bindings !! var); reflexivity.
  - repeat split.
  - reflexivity.
Qed.

(** X4: A required variable that the process has with an empty value is
    not taken from the file: [load_environment] followed by
    [get_config] stops with status 1 and names it as missing,
    whatever the file says. *)
Theorem empty_value_shadows_file (env : Env) (env_name : option string)
    (bindings : gmap string string) (w : World) (var : string) :
  dotenv env !! env_file_of env env_name = Some bindings ->
  In var IseExport.required_vars ->
  environ w !! var = Some EmptyString ->
  let m := IseExport.load_environment env env_name ;; IseExport.get_config in
  fst (m w) = Raise (SystemExit 1)
  /\ exists missing,
       In var missing
       /\ errors (history m w)
          = ["Missing required environment variables: " +:+ join ", " missing].
Proof.
  intros Hfile Hin Hempty m. subst m.
  destruct (load_environment_run env env_name bindings w Hfile)
    as (w' & Hrun & Hvars & _ & Htrace).
  assert (Hvar : In var (missing_of (environ w'))).
  { apply in_missing_of. split; [exact Hin|]. right.
    now rewrite Hvars, Hempty. }
  destruct (get_config_run_missing w') as [Hget _].
  { intros Hnil. rewrite Hnil in Hvar. destruct Hvar. }
  unfold history, bind. rewrite Hrun, Hget. simpl.
  split; [reflexivity|]. exists (missing_of (environ w')).
  split; [exact Hvar|].
  rewrite Htrace, <- app_assoc, drop_app_length. reflexivity.
Qed.

Lemma empty_value_shadows_file_witness :
  let m := IseExport.load_environment lab_env None ;; IseExport.get_config in
  fst (m half_configured_world) = Raise (SystemExit 1)
  /\ errors (history m half_configured_world)
     = ["Missing required environment variables: ISE_KEY"].
Proof.
  intros m.
  destruct (empty_value_shadows_file lab_env None lab_settings
              half_configured_world "ISE_KEY") as (Hr & missing & _ & _).
  - vm_compute. reflexivity.
  - simpl. auto.
  - vm_compute. reflexivity.
  - split; [exact Hr|]. vm_compute. reflexivity.
Defined.

(** ** How far a run gets *)

Ltac reach_leaf p :=
  exists p; split; [simpl; auto|]; split; [simpl; auto|]; split;
    [ reflexivity
    | unfold skeleton_of, menu_skeleton, steps_matched, step_events,
             commands, test_conn, test_upload, test_csv, test_file;
      simpl; rewrite ?append_assoc; reflexivity ].

Ltac reach_menu_leaf p :=
  exists p; split; [assumption|]; split; [simpl; auto|]; split; [reflexivity|];
  cbn [skeleton_of menu_outcome handler_line str_of_exn];
  unfold test_conn, test_csv, menu_skeleton; cbn [app];
  rewrite <- ?app_assoc, ?app_nil_r; reflexivity.

(** The paths of ise-export-test.py, with how far each one got. *)
Lemma test_main_reach (env : Env) (w : World) :
  post (IseExportTest.main env) w (fun r sk _ =>
    exists p, test_path_ok env p
              /\ reached env p
              /\ r = outcome_of p
              /\ sk = skeleton_of (test_conn env) (test_csv env)
                                  (test_file env) (test_upload env) p).
Proof.
  unfold IseExportTest.main, IseExportTest.session.
  wp_step. wp_step. apply post_try_except.
  wp_load. wp_step. wp_step. wp_load. wp_load. wp_load.
  unfold ssh_connect. wp.
  destruct (connect_result env) as [ce|] eqn:Hconn.
  { wp_step. destruct ce; simpl; wp_handlers;
      [reach_leaf (ConnectFailed (SshError msg))
      | reach_leaf (ConnectFailed (OtherError msg))]. }
  wp. unfold invoke_shell. wp.
  destruct (shell_result env) as [se|] eqn:Hshell.
  { wp_step. destruct se; simpl; wp_handlers;
      [reach_leaf (ShellFailed (SshError msg))
      | reach_leaf (ShellFailed (OtherError msg))]. }
  wp. apply post_bind.
  eapply post_conseq; [apply drive_menu_paths|].
  intros r sk w' (e & Hok & -> & ->). rewrite csv_of_test.
  destruct e as [|k|k|]; cbn [menu_outcome menu_ending_ok] in Hok |- *;
    cbv beta iota.
  - unfold close_connection. wp.
    unfold path_exists. wp.
    destruct (bool_decide _) eqn:Hfile.
    + apply bool_decide_eq_true in Hfile.
      change (test_file env ∈ files env) in Hfile.
      wp. unfold IseExportTest.os_system. wp.
      destruct (system_status env =? 0) eqn:Hstatus; simpl.
      * apply Z.eqb_eq in Hstatus. wp. reach_leaf Uploaded.
      * apply Z.eqb_neq in Hstatus. wp. reach_leaf UploadFailed.
    + apply bool_decide_eq_false in Hfile.
      change (test_file env ∉ files env) in Hfile.
      wp. reach_leaf FileMissing.
  - destruct Hok as [Hk _]. reach_menu_leaf (InMenu (TimedOut k)).
  - destruct Hok as [Hk _]. wp_handlers. reach_menu_leaf (InMenu (Garbled k)).
  - rewrite test_globals_csv in Hok. discriminate.
Qed.

(** The paths of the [try] statement of ise-export.py, with how far
    each one got. *)
Lemma export_session_reach (env : Env) (config : gmap string string)
    (w : World) :
  let conn := EvConnect (IseExport.item config "ISE_HOST")
                        (IseExport.item config "ISE_USER")
                        (expand (userhome_of env (environ w)) (passwd env)
                                (IseExport.item config "ISE_KEY")) in
  post (try_except (IseExport.session env config)
                   on_ssh_exception on_exception) w (fun r sk _ =>
    exists p, export_path_ok p
              /\ reached env p
              /\ (forall msg, p <> EarlyExit msg)
              /\ (forall e, p <> Uncaught e)
              /\ r = outcome_of p
              /\ sk = skeleton_of conn EmptyString EmptyString conn p).
Proof.
  intros conn.
  apply post_try_except. unfold IseExport.session.
  wp_step. wp_step. apply post_bind.
  eapply (post_pure _ (expand (userhome_of env (environ w)) (passwd env)
                              (IseExport.item config "ISE_KEY")));
    [reflexivity | reflexivity |].
  unfold ssh_connect. wp. fold conn.
  destruct (connect_result env) as [ce|] eqn:Hconn.
  { wp_step. destruct ce; simpl; wp_handlers;
      [ exists (ConnectFailed (SshError msg))
      | exists (ConnectFailed (OtherError msg)) ];
      repeat split; auto; discriminate. }
  wp. unfold invoke_shell. wp.
  destruct (shell_result env) as [se|] eqn:Hshell.
  { wp_step. destruct se; simpl; wp_handlers;
      [ exists (ShellFailed (SshError msg))
      | exists (ShellFailed (OtherError msg)) ];
      repeat split; auto; discriminate. }
  wp. apply post_bind.
  eapply post_conseq; [apply drive_menu_paths|].
  intros r sk w' (e & Hok & -> & ->). rewrite csv_of_export.
  destruct e as [|k|k|]; cbn [menu_outcome menu_ending_ok] in Hok |- *;
    cbv beta iota.
  - rewrite export_globals_csv in Hok. destruct Hok; discriminate.
  - destruct Hok as [Hk Hlast].
    assert (Hk5 : (k < 5)%nat).
    { destruct (Nat.eq_dec k 5%nat) as [->|]; [|lia].
      rewrite export_globals_csv in Hlast.
      destruct (Hlast eq_refl); discriminate. }
    exists (InMenu (TimedOut k)).
    split; [exact Hk5|]. split; [simpl; auto|]. split; [discriminate|].
    split; [discriminate|].
    split; [reflexivity|].
    cbn [skeleton_of menu_outcome]. unfold menu_skeleton. cbn [app].
    rewrite <- ?app_assoc, ?app_nil_r. reflexivity.
  - destruct Hok as [Hk Hlast].
    assert (Hk5 : (k < 5)%nat).
    { destruct (Nat.eq_dec k 5%nat) as [->|]; [|lia].
      rewrite export_globals_csv in Hlast.
      destruct (Hlast eq_refl); discriminate. }
    wp_handlers.
    exists (InMenu (Garbled k)).
    split; [exact Hk5|]. split; [simpl; auto|]. split; [discriminate|].
    split; [discriminate|].
    split; [reflexivity|].
    cbn [skeleton_of menu_outcome handler_line str_of_exn].
    unfold menu_skeleton. cbn [app].
    rewrite <- ?app_assoc, ?app_nil_r. reflexivity.
  - wp_handlers.
    exists (InMenu Unbound).
    split; [exact I|]. split; [simpl; auto|]. split; [discriminate|].
    split; [discriminate|].
    split; [reflexivity|]. reflexivity.
Qed.

(** ** More about [wait_for_prompt] *)

Lemma take_0 (s : string) : take 0 s = EmptyString.
Proof. now destruct s. Qed.

Lemma take_nil (n : nat) : take n EmptyString = EmptyString.
Proof. now destruct n. Qed.

Lemma take_S (n : nat) (c : ascii) (s : string) :
  take (S n) (String c s) = String c (take n s).
Proof. reflexivity. Qed.

Lemma drop_0 (s : string) : drop 0 s = s.
Proof. now destruct s. Qed.

Lemma drop_nil (n : nat) : drop n EmptyString = EmptyString.
Proof. now destruct n. Qed.

Lemma drop_S (n : nat) (c : ascii) (s : string) :
  drop (S n) (String c s) = drop n s.
Proof. reflexivity. Qed.

Lemma length_take_le (n : nat) (s : string) : (String.length (take n s) <= n)%nat.
Proof.
  revert s. induction n as [|n IH]; intros s.
  - rewrite take_0. simpl. lia.
  - destruct s as [|c s]; [rewrite take_nil; simpl; lia|].
    rewrite take_S. simpl. specialize (IH s). lia.
Qed.

Lemma length_take_pos (n : nat) (s : string) :
  is_empty s = false -> (1 <= String.length (take (S n) s))%nat.
Proof. destruct s; [discriminate|]. rewrite take_S. simpl. lia. Qed.

Lemma take_drop (n : nat) (s : string) : take n s +:+ drop n s = s.
Proof.
  revert s. induction n as [|n IH]; intros s.
  - now rewrite take_0, drop_0.
  - destruct s as [|c s]; [now rewrite take_nil, drop_nil|].
    rewrite take_S, drop_S. simpl. now rewrite IH.
Qed.

Lemma sleeps_app (l1 l2 : list event) : sleeps (l1 ++ l2) = sleeps l1 ++ sleeps l2.
Proof. apply flat_map_app. Qed.

(** What the loop does with time and with the channel.  [evs] are the
    events it adds. *)
Lemma poll_loop_meter (interval : Z) (prompt : string) (timeout start : Z)
    (fuel : nat) :
  forall (buffer : string) (w : World) (r : outcome bool) (w' : World),
    poll_loop fuel interval prompt timeout start buffer w = (r, w') ->
    r <> Hang ->
    exists evs n,
      trace w' = trace w ++ evs
      /\ sleeps evs = List.repeat interval n
      /\ clock w' = clock w + interval * Z.of_nat n
      /\ Forall (fun c => (1 <= String.length c <= 1024)%nat) (received evs)
      /\ (length (received evs)
          <= n + match r with Return false => 0 | _ => 1 end)%nat
      /\ delivered w n = cat (received evs) +:+ inbuf w'
      /\ arrivals w' = skipn n (arrivals w)
      /\ match r with
         | Return false => timeout <= clock w' - start
         | _ => clock w' - start < timeout
         end.
Proof.
  induction fuel as [|fuel IH]; intros buffer w r w' Hrun Hr.
  { inversion Hrun; subst r. now destruct Hr. }
  rewrite poll_loop_step in Hrun.
  destruct (clock w - start <? timeout) eqn:Hlt.
  2:{ apply Z.ltb_ge in Hlt. inversion Hrun; subst r w'.
      exists [], 0%nat. unfold delivered. simpl.
      rewrite app_nil_r, append_nil_r.
      repeat split; auto; lia. }
  apply Z.ltb_lt in Hlt.
  destruct (is_empty (inbuf w)) eqn:Hempty.
  - (* nothing to read *)
    apply IH in Hrun; [|assumption].
    destruct Hrun as (evs & n & Htr & Hsl & Hclock & Hsize & Hcount & Hdel
                      & Harr & Htime).
    simpl in Htr, Hclock, Harr.
    exists (EvSleep interval :: evs), (S n).
    rewrite Htr, <- app_assoc. cbn [sleeps flat_map app List.repeat].
    fold (sleeps evs). rewrite Hsl.
    repeat split; auto; try lia.
    + cbn [received]. destruct r as [[|]|e|]; lia.
    + cbn [received]. rewrite <- Hdel. unfold delivered, time_sleep.
      cbn [snd inbuf arrivals].
      destruct (arrivals w) as [|a arr]; simpl.
      * now rewrite firstn_nil, !append_nil_r.
      * now rewrite append_assoc.
    + rewrite Harr. destruct (arrivals w); [now destruct n | reflexivity].
  - (* a chunk is read *)
    cbv zeta in Hrun. unfold recv in Hrun. rewrite Hempty in Hrun.
    cbn [snd] in Hrun.
    pose proof (length_take_le 1024 (inbuf w)) as Hle.
    pose proof (length_take_pos 1023 (inbuf w) Hempty) as Hpos.
    pose proof (take_drop 1024 (inbuf w)) as Hsplit.
    set (data := take 1024 (inbuf w)) in *.
    destruct (utf8_valid data) eqn:Hvalid.
    2:{ inversion Hrun; subst r w'. exists [EvRecv data], 0%nat.
        unfold delivered. simpl.
        repeat split; auto; try lia.
        rewrite !append_nil_r. symmetry. exact Hsplit. }
    destruct (str_in prompt (buffer +:+ data)) eqn:Hin.
    + inversion Hrun; subst r w'.
      exists [EvRecv data; EvLog INFO ("Received: " +:+ strip data)], 0%nat.
      unfold delivered. simpl. rewrite <- app_assoc.
      repeat split; auto; try lia.
      rewrite !append_nil_r. symmetry. exact Hsplit.
    + apply IH in Hrun; [|assumption].
      destruct Hrun as (evs & n & Htr & Hsl & Hclock & Hsize & Hcount & Hdel
                        & Harr & Htime).
      simpl in Htr, Hclock, Harr.
      exists (EvRecv data :: EvLog INFO ("Received: " +:+ strip data)
              :: EvSleep interval :: evs), (S n).
      rewrite Htr, <- !app_assoc. cbn [sleeps flat_map app List.repeat].
      fold (sleeps evs). rewrite Hsl.
      repeat split; auto; try lia.
      * simpl. constructor; [lia | exact Hsize].
      * simpl. destruct r as [[|]|e|]; lia.
      * cbn [received cat fold_right]. fold (cat (received evs)).
        rewrite append_assoc, <- Hdel. unfold delivered, time_sleep, emit.
        cbn [snd inbuf arrivals]. rewrite <- Hsplit at 1.
        destruct (arrivals w) as [|a arr]; simpl.
        -- rewrite firstn_nil. simpl. now rewrite !append_nil_r.
        -- now rewrite !append_assoc.
      * rewrite Harr. destruct (arrivals w); [now destruct n | reflexivity].
Qed.

Lemma sleeps_result_events (r : outcome bool) : sleeps (result_events r) = [].
Proof. destruct r; reflexivity. Qed.

(** The same for a call of the function. *)
Lemma wait_for_prompt_every_meter (interval : Z) (prompt : string)
    (timeout : Z) (w : World) :
  0 < interval ->
  let m := wait_for_prompt_every interval prompt timeout in
  exists n,
    sleeps (history m w) = List.repeat interval n
    /\ elapsed m w = interval * Z.of_nat n
    /\ Forall (fun c => (1 <= String.length c <= 1024)%nat)
              (received (history m w))
    /\ (length (received (history m w))
        <= n + match fst (m w) with Return false => 0 | _ => 1 end)%nat
    /\ delivered w n = cat (received (history m w)) +:+ inbuf (snd (m w))
    /\ arrivals (snd (m w)) = skipn n (arrivals w)
    /\ match fst (m w) with
       | Return false => timeout <= elapsed m w
       | _ => elapsed m w < timeout
       end.
Proof.
  intros Hpos m. subst m.
  destruct (wait_for_prompt_every_spec interval prompt timeout w Hpos)
    as (evs & w1 & Hpost & Hhist & Hel & _ & _).
  cbv zeta in Hpost, Hhist, Hel.
  pose proof (wait_for_prompt_every_unfold interval prompt timeout w) as Hm.
  destruct (poll_loop (poll_fuel interval timeout) interval prompt timeout
                      (clock w) EmptyString (emit (EvExpect prompt) w))
    as [r w2] eqn:Hloop.
  assert (Hfst : fst (wait_for_prompt_every interval prompt timeout w) = r).
  { rewrite Hm. destruct r; reflexivity. }
  assert (Hch : inbuf (snd (wait_for_prompt_every interval prompt timeout w))
                = inbuf w2
                /\ arrivals (snd (wait_for_prompt_every interval prompt timeout w))
                   = arrivals w2
                /\ clock (snd (wait_for_prompt_every interval prompt timeout w))
                   = clock w2).
  { rewrite Hm. destruct r; repeat split. }
  destruct Hch as (Hinbuf & Harrivals & Hclock2).
  rewrite Hfst in Hpost, Hhist |- *.
  assert (Hr : r <> Hang).
  { intros ->. now destruct Hpost as (_ & _ & _ & Hfalse). }
  destruct (poll_loop_meter _ _ _ _ _ _ _ _ _ Hloop Hr)
    as (evs' & n & Htr & Hsl & Hclock & Hsize & Hcount & Hdel & Harr & Htime).
  destruct Hpost as (Htr1 & _).
  assert (evs' = evs) as ->.
  { assert (Hw : trace w2 = trace (emit (EvExpect prompt) w) ++ evs).
    { revert Hhist. unfold history. rewrite Hm.
      simpl in Htr. intros Hhist.
      destruct r; simpl in Hhist; rewrite Htr, <- ?app_assoc in Hhist;
        rewrite <- ?app_assoc, drop_app_length in Hhist; simpl in Hhist;
        injection Hhist as Hhist; rewrite ?app_nil_r in Hhist;
        try apply app_inv_tail in Hhist; subst; exact Htr. }
    rewrite Htr in Hw. now apply app_inv_head in Hw. }
  exists n. rewrite Hhist, Hinbuf, Harrivals.
  unfold elapsed. rewrite Hclock2.
  change (EvExpect prompt :: evs ++ result_events r)
    with ([EvExpect prompt] ++ evs ++ result_events r).
  rewrite !sleeps_app, !received_app, sleeps_result_events,
    received_result_events, !app_nil_r.
  simpl in Hclock, Hdel, Harr.
  cbn [sleeps flat_map received app].
  repeat split; auto; try lia.
Qed.

Lemma length_append (a b : string) :
  String.length (a +:+ b) = (String.length a + String.length b)%nat.
Proof. induction a as [|c a IH]; simpl; congruence. Qed.

Lemma length_cat_le (bound : nat) (l : list string) :
  Forall (fun c => (1 <= String.length c <= bound)%nat) l ->
  (length l <= String.length (cat l) <= bound * length l)%nat.
Proof.
  induction 1 as [|c l Hc _ IH]; simpl; [lia|].
  rewrite length_append. lia.
Qed.

(** X5: Every chunk that [wait_for_prompt] reads has at least one byte and
    at most 1024. *)
Theorem chunks_are_bounded (prompt : string) (timeout : Z) (w : World) :
  Forall (fun c => (1 <= String.length c <= 1024)%nat)
         (received (history (wait_for_prompt prompt timeout) w)).
Proof.
  destruct (wait_for_prompt_every_meter SLEEP_MS prompt timeout w)
    as (n & _ & _ & Hsize & _); [reflexivity|].
  exact Hsize.
Qed.

(** X6: The pace of [wait_for_prompt]: every sleep is of 100 ms, the time
    the call takes is that of its sleeps, and it reads at most one
    chunk before each sleep and one more at the end; so in [n] sleeps
    it reads at most [1024 * (n + 1)] bytes. *)
Theorem one_chunk_per_sleep (prompt : string) (timeout : Z) (w : World) :
  let m := wait_for_prompt prompt timeout in
  let n := length (sleeps (history m w)) in
  sleeps (history m w) = List.repeat SLEEP_MS n
  /\ elapsed m w = SLEEP_MS * Z.of_nat n
  /\ (length (received (history m w)) <= n + 1)%nat
  /\ (String.length (cat (received (history m w))) <= 1024 * (n + 1))%nat.
Proof.
  intros m n. subst m n.
  destruct (wait_for_prompt_every_meter SLEEP_MS prompt timeout w)
    as (n & Hsl & Hel & Hsize & Hcount & _); [reflexivity|].
  fold (wait_for_prompt prompt timeout) in *.
  rewrite Hsl, repeat_length.
  pose proof (length_cat_le 1024 _ Hsize) as Hlen.
  repeat split; auto.
  - destruct (fst _) as [[|]|e|]; lia.
  - destruct (fst _) as [[|]|e|]; nia.
Qed.

Lemma ascii_only_app (a b : string) :
  ascii_only (a +:+ b) = ascii_only a && ascii_only b.
Proof.
  induction a as [|c a IH]; simpl; [reflexivity|].
  now rewrite IH, andb_assoc.
Qed.

Lemma ascii_only_cat (l : list string) :
  Forall (fun c => ascii_only c = true) l -> ascii_only (cat l) = true.
Proof.
  induction 1 as [|c l Hc _ IH]; simpl; [reflexivity|].
  now rewrite ascii_only_app, Hc, IH.
Qed.

Lemma ascii_only_cat_inv (l : list string) :
  ascii_only (cat l) = true -> Forall (fun c => ascii_only c = true) l.
Proof.
  induction l as [|c l IH]; simpl; [constructor|].
  rewrite ascii_only_app, andb_true_iff. intros [Hc Hl].
  constructor; auto.
Qed.

Lemma ascii_only_utf8_valid (s : string) :
  ascii_only s = true -> utf8_valid s = true.
Proof.
  induction s as [|c s IH]; [reflexivity|].
  simpl. rewrite andb_true_iff. intros [Hc Hs].
  unfold utf8_valid; fold utf8_valid. rewrite Hc. auto.
Qed.

(** X8: On a channel that carries ASCII only, [wait_for_prompt] does not
    raise: it returns [True] or [False]. *)
Theorem ascii_output_never_raises (prompt : string) (timeout : Z) (w : World) :
  ascii_only (inbuf w) = true ->
  Forall (fun a => ascii_only a = true) (arrivals w) ->
  exists matched, fst (wait_for_prompt prompt timeout w) = Return matched.
Proof.
  intros Hbuf Harr.
  destruct (wait_for_prompt_every_meter SLEEP_MS prompt timeout w)
    as (n & _ & _ & _ & _ & Hdel & _); [reflexivity|].
  destruct (wait_for_prompt_every_spec SLEEP_MS prompt timeout w)
    as (evs & w1 & Hpost & Hhist & _); [reflexivity|].
  fold (wait_for_prompt prompt timeout) in *.
  assert (Hall : Forall (fun c => ascii_only c = true)
                        (received (history (wait_for_prompt prompt timeout) w))).
  { apply ascii_only_cat_inv.
    assert (Hd : ascii_only (delivered w n) = true).
    { unfold delivered. rewrite ascii_only_app, Hbuf. simpl.
      apply ascii_only_cat. now apply Forall_take. }
    rewrite Hdel, ascii_only_app, andb_true_iff in Hd. tauto. }
  rewrite Hhist, received_history in Hall.
  destruct Hpost as (_ & _ & _ & Hr).
  destruct (fst (wait_for_prompt prompt timeout w)) as [b|e|]; [eauto| |easy].
  destruct Hr as (_ & chunks & last & Hrecv & Hbad & _).
  rewrite Hrecv in Hall. apply Forall_app in Hall as [_ Hlast].
  inversion Hlast as [|? ? Hascii _]; subst.
  apply ascii_only_utf8_valid in Hascii. congruence.
Qed.

Lemma ascii_output_never_raises_witness :
  exists matched,
    fst (wait_for_prompt PROMPT DEFAULT_TIMEOUT_MS split_world) = Return matched.
Proof.
  apply ascii_output_never_raises.
  - vm_compute. reflexivity.
  - vm_compute. repeat constructor.
Defined.

Lemma cat_empty (l : list string) :
  Forall (fun a => a = EmptyString) l -> cat l = EmptyString.
Proof. induction 1 as [|a l -> _ IH]; simpl; auto. Qed.

(** X9: When nothing is buffered and nothing arrives, [wait_for_prompt]
    with a positive timeout reads nothing and returns [False] once the
    timeout has elapsed, at most one sleep later, whatever the prompt
    is: the empty prompt, which occurs in every text, does not match
    either, because the text is only looked at after a read. *)
Theorem silent_channel_times_out (prompt : string) (timeout : Z) (w : World) :
  0 < timeout ->
  inbuf w = EmptyString ->
  Forall (fun a => a = EmptyString) (arrivals w) ->
  let m := wait_for_prompt prompt timeout in
  fst (m w) = Return false
  /\ received (history m w) = []
  /\ timeout <= elapsed m w <= timeout + SLEEP_MS.
Proof.
  intros Hpos Hbuf Harr m. subst m.
  destruct (wait_for_prompt_every_meter SLEEP_MS prompt timeout w)
    as (n & _ & _ & Hsize & _ & Hdel & _); [reflexivity|].
  destruct (wait_for_prompt_every_spec SLEEP_MS prompt timeout w)
    as (evs & w1 & Hpost & Hhist & Hel & _); [reflexivity|].
  fold (wait_for_prompt prompt timeout) in *.
  assert (Hnone : received (history (wait_for_prompt prompt timeout) w) = []).
  { unfold delivered in Hdel. rewrite Hbuf in Hdel.
    rewrite (cat_empty (firstn n (arrivals w))) in Hdel
      by now apply Forall_take.
    simpl in Hdel.
    destruct (received _) as [|c l]; [reflexivity|].
    inversion Hsize as [|? ? Hc _]; subst.
    destruct c; simpl in Hc, Hdel; [lia|discriminate]. }
  split; [|split; [exact Hnone|]].
  - rewrite Hhist, received_history in Hnone.
    destruct Hpost as (_ & _ & _ & Hr).
    destruct (fst (wait_for_prompt prompt timeout w)) as [[|]|e|];
      [ | reflexivity | | easy ].
    + destruct Hr as (_ & Hne & _). congruence.
    + destruct Hr as (_ & chunks & last & Hrecv & _).
      rewrite Hnone in Hrecv. now destruct chunks.
  - rewrite Hhist, received_history in Hnone.
    destruct Hpost as (_ & _ & _ & Hr). rewrite Hel.
    destruct (fst (wait_for_prompt prompt timeout w)) as [[|]|e|];
      [ | | | easy ].
    + destruct Hr as (_ & Hne & _). congruence.
    + destruct Hr as (_ & _ & Hlate & Hclock). simpl in Hclock, Hlate. lia.
    + destruct Hr as (_ & chunks & last & Hrecv & _).
      rewrite Hnone in Hrecv. now destruct chunks.
Qed.

Lemma silent_channel_times_out_witness :
  fst (wait_for_prompt EmptyString 250 silent_world) = Return false
  /\ elapsed (wait_for_prompt EmptyString 250) silent_world = 300.
Proof.
  destruct (silent_channel_times_out EmptyString 250 silent_world)
    as (Hr & _ & _).
  - lia.
  - reflexivity.
  - constructor.
  - split; [exact Hr|]. vm_compute. reflexivity.
Defined.

(** The loop returns [True] at the first read that completes the
    prompt. *)
Lemma poll_loop_first_match (interval : Z) (prompt : string)
    (timeout start : Z) (fuel : nat) :
  forall (buffer : string) (w w' : World),
    poll_loop fuel interval prompt timeout start buffer w = (Return true, w') ->
    exists evs init last,
      trace w' = trace w ++ evs
                 ++ [EvRecv last; EvLog INFO ("Received: " +:+ strip last)]
      /\ received evs = init
      /\ (init = [] \/ str_in prompt (buffer +:+ cat init) = false)
      /\ str_in prompt (buffer +:+ cat init +:+ last) = true.
Proof.
  induction fuel as [|fuel IH]; intros buffer w w' Hrun; [discriminate|].
  rewrite poll_loop_step in Hrun.
  destruct (clock w - start <? timeout); [|discriminate].
  destruct (is_empty (inbuf w)) eqn:Hempty.
  - apply IH in Hrun.
    destruct Hrun as (evs & init & last & Htr & Hrecv & Hinit & Hlast).
    simpl in Htr.
    exists (EvSleep interval :: evs), init, last.
    rewrite Htr, <- app_assoc. auto.
  - cbv zeta in Hrun. unfold recv in Hrun. rewrite Hempty in Hrun.
    cbn [snd] in Hrun.
    set (data := take 1024 (inbuf w)) in *.
    destruct (utf8_valid data); [|discriminate].
    destruct (str_in prompt (buffer +:+ data)) eqn:Hin.
    + inversion Hrun; subst w'.
      exists [], [], data. simpl. rewrite <- app_assoc.
      repeat split; auto.
    + apply IH in Hrun.
      destruct Hrun as (evs & init & last & Htr & Hrecv & Hinit & Hlast).
      simpl in Htr.
      exists (EvRecv data :: EvLog INFO ("Received: " +:+ strip data)
              :: EvSleep interval :: evs), (data :: init), last.
      rewrite Htr, <- !app_assoc. simpl. rewrite Hrecv.
      rewrite !append_assoc in Hlast. rewrite append_assoc in Hinit.
      repeat split; auto.
      * right. destruct Hinit as [-> | Hinit]; simpl.
        -- now rewrite append_nil_r.
        -- exact Hinit.
      * rewrite ?append_assoc. exact Hlast.
Qed.

(** X10: [wait_for_prompt] returns [True] at the first read that completes
    the prompt: the text read before the last chunk did not contain it
    (or nothing had been read), the text with the last chunk does, and
    the call returns right after logging that chunk, without another
    sleep. *)
Theorem returns_at_first_match (prompt : string) (timeout : Z) (w : World) :
  let m := wait_for_prompt prompt timeout in
  fst (m w) = Return true ->
  exists before init last,
    history m w
    = before ++ [EvRecv last; EvLog INFO ("Received: " +:+ strip last);
                 EvResult true]
    /\ received before = init
    /\ received (history m w) = init ++ [last]
    /\ (init = [] \/ str_in prompt (cat init) = false)
    /\ str_in prompt (cat (init ++ [last])) = true.
Proof.
  intros m Hr. subst m. unfold wait_for_prompt in *.
  pose proof (wait_for_prompt_every_unfold SLEEP_MS prompt timeout w) as Hm.
  destruct (poll_loop (poll_fuel SLEEP_MS timeout) SLEEP_MS prompt timeout
                      (clock w) EmptyString (emit (EvExpect prompt) w))
    as [r w2] eqn:Hloop.
  assert (r = Return true) as ->.
  { rewrite Hm in Hr. destruct r as [b|e|]; simpl in Hr; congruence. }
  destruct (poll_loop_first_match _ _ _ _ _ _ _ _ Hloop)
    as (evs & init & last & Htr & Hrecv & Hinit & Hlast).
  simpl in Htr, Hinit, Hlast.
  exists (EvExpect prompt :: evs), init, last.
  assert (Hhist : history (wait_for_prompt_every SLEEP_MS prompt timeout) w
                  = (EvExpect prompt :: evs)
                    ++ [EvRecv last; EvLog INFO ("Received: " +:+ strip last);
                        EvResult true]).
  { apply history_app. rewrite Hm. simpl. rewrite Htr, <- !app_assoc.
    reflexivity. }
  rewrite Hhist, received_app. simpl. rewrite Hrecv, cat_app. simpl.
  rewrite append_nil_r. repeat split; auto.
Qed.

Lemma returns_at_first_match_witness :
  exists before,
    history (wait_for_prompt PROMPT DEFAULT_TIMEOUT_MS) split_world
    = before ++ [EvRecv "min# "; EvLog INFO "Received: min#"; EvResult true].
Proof.
  destruct (returns_at_first_match PROMPT DEFAULT_TIMEOUT_MS split_world)
    as (before & init & last & Hhist & _ & Hrecv & _).
  - vm_compute. reflexivity.
  - exists before.
    assert (last = "min# ") as ->.
    { revert Hrecv. vm_compute.
      destruct init as [|a [|b init]]; simpl; intros [=]; subst; auto.
      destruct init; discriminate. }
    exact Hhist.
Defined.

(** ** ise-export.py before it connects *)

(** A run that fails one of the checks. *)
Lemma export_main_early (env : Env) (w : World) (stop : halt) :
  preflight env w = Some stop ->
  exists infos,
    fst (IseExport.main env w) = halt_outcome stop
    /\ history (IseExport.main env) w = infos ++ halt_events stop
    /\ skel infos = []
    /\ (forall e, stop = Traceback e -> infos = [])
    /\ same_channel w (snd (IseExport.main env w)).
Proof.
  unfold preflight, history. cbv zeta. intros Hpre.
  remember (IseExport.main env w) as run eqn:Hrun.
  unfold IseExport.main in Hrun.
  cbv zeta in Hrun.
  destruct (dotenv env !! env_file_of env (env_name_of env))
    as [bindings|] eqn:Hfile.
  2:{ destruct (unreadable env !! env_file_of env (env_name_of env))
        as [msg|] eqn:Hbad; injection Hpre as <-.
      - rewrite (bind_raise _ _ _ _ _
                   (load_environment_unreadable _ _ _ _ Hfile Hbad)) in Hrun.
        subst run. exists []. simpl. rewrite drop_all.
        repeat split.
      - rewrite (bind_raise _ _ _ _ _
                   (load_environment_missing _ _ _ Hfile Hbad)) in Hrun.
        subst run. exists []. simpl. rewrite drop_app_length.
        repeat split; discriminate. }
  rewrite (bind_return _ _ _ _ _ (load_environment_found _ _ _ w Hfile))
    in Hrun.
  set (w1 := emit _ _) in Hrun.
  change (environ w ∪ bindings) with (environ w1) in Hpre.
  destruct (missing_of (environ w1)) as [|var vars] eqn:Hmissing.
  2:{ injection Hpre as <-.
      destruct (get_config_run_missing w1) as [Hget _]; [congruence|].
      rewrite Hmissing in Hget.
      rewrite (bind_raise _ _ _ _ _ Hget) in Hrun.
      subst run.
      exists [EvLog INFO ("Loaded environment from "
                          +:+ env_file_of env (env_name_of env))].
      subst w1. unfold emit. cbn [trace clock inbuf arrivals environ snd fst].
      rewrite <- app_assoc, drop_app_length.
      repeat split; discriminate. }
  destruct (get_config_run_complete w1 Hmissing) as (config & Hget & _).
  rewrite (bind_return _ _ _ _ _ Hget) in Hrun.
  unfold logging_info at 1, do_event at 1 in Hrun.
  erewrite bind_return in Hrun by reflexivity.
  set (w2 := emit _ w1) in Hrun.
  unfold IseExport.check_aws_credentials in Hrun.
  destruct (aws_credentials env) as [| |cause]; [discriminate| |];
    injection Hpre as <-;
    (erewrite bind_return in Hrun by reflexivity);
    simpl negb in Hrun; cbv iota in Hrun;
    (erewrite bind_raise in Hrun by reflexivity);
    subst run; eexists [_; _];
    subst w2 w1; unfold emit;
    cbn [trace clock inbuf arrivals environ snd fst];
    rewrite <- !app_assoc, drop_app_length;
    repeat split; discriminate.
Qed.

(** A run that passes the checks goes on to the [try] statement, with
    the settings in [config] and two informational lines logged. *)
Lemma export_main_ready (env : Env) (w : World) :
  preflight env w = None ->
  exists bindings config infos w2,
    dotenv env !! env_file_of env (env_name_of env) = Some bindings
    /\ (forall var, In var IseExport.required_vars ->
          config !! var = (environ w ∪ bindings) !! var)
    /\ IseExport.main env w
       = try_except (IseExport.session env config)
                    on_ssh_exception on_exception w2
    /\ trace w2 = trace w ++ infos
    /\ skel infos = []
    /\ environ w2 = environ w ∪ bindings
    /\ same_channel w w2.
Proof.
  unfold preflight. cbv zeta. intros Hpre.
  unfold IseExport.main. cbv zeta.
  destruct (dotenv env !! env_file_of env (env_name_of env))
    as [bindings|] eqn:Hfile;
    [|destruct (unreadable env !! _); discriminate].
  rewrite (bind_return _ _ _ _ _ (load_environment_found _ _ _ w Hfile)).
  set (w1 := emit _ _).
  change (environ w ∪ bindings) with (environ w1) in Hpre |- *.
  destruct (missing_of (environ w1)) as [|var vars] eqn:Hmissing;
    [|discriminate].
  destruct (get_config_run_complete w1 Hmissing) as (config & Hget & Hreq & _).
  rewrite (bind_return _ _ _ _ _ Hget).
  unfold logging_info at 1, do_event at 1.
  erewrite bind_return by reflexivity.
  set (w2 := emit _ w1).
  unfold IseExport.check_aws_credentials.
  destruct (aws_credentials env) as [| |cause]; try discriminate.
  erewrite bind_return by reflexivity. simpl negb. cbv iota.
  erewrite bind_return by reflexivity.
  exists bindings, config.
  eexists [_; _], w2.
  split; [reflexivity|]. split; [|split; [reflexivity|]].
  - intros var Hin. destruct (Hreq var Hin) as (s & _ & Hs & ->).
    symmetry. exact Hs.
  - subst w2 w1. unfold emit. simpl. rewrite <- app_assoc.
    repeat split; reflexivity.
Qed.

(** An environment file that exists and cannot be read: [load_dotenv]
    raises, outside the [try]. *)
Lemma preflight_traceback (env : Env) (w : World) (e : exn) :
  preflight env w = Some (Traceback e) <->
  dotenv env !! env_file_of env (env_name_of env) = None
  /\ exists msg, unreadable env !! env_file_of env (env_name_of env) = Some msg
                 /\ e = OtherException msg.
Proof.
  unfold preflight. cbv zeta.
  destruct (dotenv env !! _) as [bindings|].
  - split; [|intros [? _]; discriminate].
    destruct (missing_of _); [|discriminate].
    destruct (aws_credentials env); discriminate.
  - destruct (unreadable env !! _) as [msg|].
    + split.
      * intros [= <-]. eauto.
      * intros (_ & msg' & [= <-] & ->). reflexivity.
    + split; [discriminate|]. intros (_ & msg & ? & _). discriminate.
Qed.

Lemma connects_skel (h : list event) : connects (skel h) = connects h.
Proof.
  induction h as [|e h IH]; [reflexivity|].
  destruct e as [[] ?| | | | | | | | | | |]; unfold connects, skel in *; simpl;
    rewrite ?IH; reflexivity.
Qed.

Lemma connects_app (l1 l2 : list event) :
  connects (l1 ++ l2) = connects l1 ++ connects l2.
Proof. apply List.filter_app. Qed.

Lemma elapsed_same_channel {A} (m : M A) (w : World) :
  same_channel w (snd (m w)) -> elapsed m w = 0.
Proof. unfold elapsed. intros (Hc & _). lia. Qed.

(** X11: ise-export.py stops at the first check that fails: the environment
    file, then the required variables, then the AWS credentials.  The
    run then logs that check's error line and no other and leaves
    through [sys.exit(1)]; or, when the environment file is there and
    cannot be read, it logs no error line and ends with the exception
    that [load_dotenv] raised.  Either way the status is 1 and the run
    has not touched the network: no connection is attempted, nothing
    is read and no time is spent waiting. *)
Theorem failed_check_stops_run (env : Env) (w : World) (stop : halt) :
  preflight env w = Some stop ->
  let run := IseExport.main env in
  skel (history run w)
  = match stop with
    | ErrorLine msg => [EvLog ERROR msg]
    | Traceback _ => []
    end
  /\ fst (run w)
     = match stop with
       | ErrorLine _ => Raise (SystemExit 1)
       | Traceback e => Raise e
       end
  /\ connects (history run w) = []
  /\ exit_status (fst (run w)) = Some 1
  /\ elapsed run w = 0
  /\ same_channel w (snd (run w)).
Proof.
  intros Hpre run. subst run.
  destruct (export_main_early env w stop Hpre)
    as (infos & Hr & Hhist & Hinfos & _ & Hsame).
  rewrite <- connects_skel, Hhist, skel_app, Hinfos, Hr.
  assert (Hstatus : exit_status (halt_outcome stop) = Some 1).
  { destruct stop as [msg|e]; [reflexivity|].
    apply preflight_traceback in Hpre as (_ & msg & _ & ->). reflexivity. }
  destruct stop; repeat split; try apply Hsame; try exact Hstatus;
    now apply elapsed_same_channel.
Qed.

Lemma failed_check_stops_run_witness :
  skel (history (IseExport.main lab_env) half_configured_world)
  = [EvLog ERROR "Missing required environment variables: ISE_KEY"]
  /\ elapsed (IseExport.main lab_env) half_configured_world = 0
  /\ skel (history (IseExport.main (locked_env "prod/")) silent_world) = []
  /\ fst (IseExport.main (locked_env "prod/") silent_world)
     = Raise (OtherException "[Errno 13] Permission denied: '/opt/ise/.env.prod'").
Proof.
  destruct (failed_check_stops_run lab_env half_configured_world
              (ErrorLine "Missing required environment variables: ISE_KEY"))
    as (Hsk & _ & _ & _ & Hel & _); [vm_compute; reflexivity|].
  destruct (failed_check_stops_run (locked_env "prod/") silent_world
              (Traceback (OtherException
                 "[Errno 13] Permission denied: '/opt/ise/.env.prod'")))
    as (Hsk' & Hr' & _); [vm_compute; reflexivity|].
  repeat split; assumption.
Defined.

(** The skeleton of a run of ise-export.py that passes the checks, with
    how far it got. *)
Lemma export_ready_run (env : Env) (w : World) :
  preflight env w = None ->
  exists bindings p,
    dotenv env !! env_file_of env (env_name_of env) = Some bindings
    /\ export_path_ok p
    /\ reached env p
    /\ (forall msg, p <> EarlyExit msg)
    /\ (forall e, p <> Uncaught e)
    /\ fst (IseExport.main env w) = outcome_of p
    /\ skel (history (IseExport.main env) w)
       = skeleton_of (export_conn env (environ w ∪ bindings))
                     EmptyString EmptyString
                     (export_conn env (environ w ∪ bindings)) p.
Proof.
  intros Hpre.
  destruct (export_main_ready env w Hpre)
    as (bindings & config & infos & w2 & Hfile & Hreq & Hmain & Htr & Hinfos
        & Henv & Hsame).
  destruct (export_session_reach env config w2)
    as (evs & Htrace & p & Hok & Hreach & Hne & Hnu & Hr & Hsk).
  exists bindings, p.
  assert (Hconn : EvConnect (IseExport.item config "ISE_HOST")
                            (IseExport.item config "ISE_USER")
                            (expand (userhome_of env (environ w2)) (passwd env)
                                    (IseExport.item config "ISE_KEY"))
                  = export_conn env (environ w ∪ bindings)).
  { unfold export_conn, IseExport.item.
    rewrite !Hreq by (simpl; auto 10). rewrite Henv. reflexivity. }
  rewrite Hconn in Hsk.
  assert (Hhist : history (IseExport.main env) w = infos ++ evs).
  { apply history_app. rewrite Hmain, Htrace, Htr. now rewrite app_assoc. }
  rewrite Hhist, skel_app, Hinfos, Hmain.
  repeat split; auto.
Qed.

(** X12: A run of ise-export.py that passes the checks attempts exactly one
    connection: to the host [ISE_HOST], as the user [ISE_USER], with
    the key file [ISE_KEY], each taken from the process environment if
    it is set there and from the environment file otherwise.  The key
    file goes through [os.path.expanduser] with the home directory of
    that moment: a name that does not start with a tilde is passed as
    it is, and [~/...] is put below [HOME], without the slashes that
    [HOME] ends with, when [HOME] is set in the process environment or
    in the file. *)
Theorem connects_as_configured (env : Env) (w : World) :
  preflight env w = None ->
  exists bindings host user key,
    dotenv env !! env_file_of env (env_name_of env) = Some bindings
    /\ (environ w ∪ bindings) !! "ISE_HOST" = Some host
    /\ (environ w ∪ bindings) !! "ISE_USER" = Some user
    /\ (environ w ∪ bindings) !! "ISE_KEY" = Some key
    /\ connects (history (IseExport.main env) w)
       = [EvConnect host user
                    (expand (userhome_of env (environ w ∪ bindings))
                            (passwd env) key)]
    /\ (forall c rest, key = String c rest -> c <> "~"%char ->
        connects (history (IseExport.main env) w) = [EvConnect host user key])
    /\ (forall dir rest,
          (environ w ∪ bindings) !! "HOME" = Some dir ->
          key = "~/" +:+ rest ->
          connects (history (IseExport.main env) w)
          = [EvConnect host user (rstrip_slash dir +:+ "/" +:+ rest)]).
Proof.
  intros Hpre.
  destruct (export_ready_run env w Hpre)
    as (bindings & p & Hfile & Hok & _ & Hne & Hnu & _ & Hsk).
  assert (Hset : forall var, In var IseExport.required_vars ->
                   exists value, (environ w ∪ bindings) !! var = Some value).
  { intros var Hin. revert Hpre. unfold preflight. cbv zeta. rewrite Hfile.
    destruct (missing_of (environ w ∪ bindings)) eqn:Hmissing;
      [intros _ | discriminate].
    destruct ((environ w ∪ bindings) !! var) as [value|] eqn:Hvar; [eauto|].
    assert (Hin' : In var (missing_of (environ w ∪ bindings))).
    { apply in_missing_of. split; [exact Hin|]. now left. }
    rewrite Hmissing in Hin'. destruct Hin'. }
  destruct (Hset "ISE_HOST") as [host Hhost]; [simpl; auto|].
  destruct (Hset "ISE_USER") as [user Huser]; [simpl; auto|].
  destruct (Hset "ISE_KEY") as [key Hkey]; [simpl; auto|].
  exists bindings, host, user, key.
  assert (Hconnects : connects (history (IseExport.main env) w)
            = [EvConnect host user
                 (expand (userhome_of env (environ w ∪ bindings))
                         (passwd env) key)]).
  { rewrite <- connects_skel, Hsk. unfold export_conn.
    rewrite Hhost, Huser, Hkey. cbn [default from_option id].
    generalize (expand (userhome_of env (environ w ∪ bindings))
                       (passwd env) key).
    intros path. clear Hsk Hfile Hpre.
    each_path p Hok;
      try (exfalso; exact (Hne _ eq_refl));
      try (exfalso; exact (Hnu _ eq_refl)); reflexivity. }
  repeat split; try assumption.
  - intros c rest -> Hc. rewrite Hconnects. unfold expand.
    destruct (Ascii.eqb_spec c "~"); [contradiction|].
    destruct c as [[] [] [] [] [] [] [] []]; try reflexivity.
    contradiction.
  - intros dir rest Hhome ->. rewrite Hconnects.
    unfold userhome_of. rewrite Hhome. unfold expand. simpl.
    destruct (rstrip_slash dir); reflexivity.
Qed.

Lemma connects_as_configured_witness :
  connects (history (IseExport.main lab_env) smooth_world)
  = [EvConnect "10.0.0.5" "admin" "/root/.ssh/ise"].
Proof.
  destruct (connects_as_configured lab_env smooth_world)
    as (bindings & host & user & key & Hfile & Hhost & Huser & Hkey & -> & _).
  - vm_compute. reflexivity.
  - assert (bindings = lab_settings) as ->.
    { assert (Hname : env_file_of lab_env (env_name_of lab_env)
                      = "/opt/ise/.env") by (vm_compute; reflexivity).
      rewrite Hname in Hfile. unfold lab_env in Hfile. cbn [dotenv] in Hfile.
      rewrite lookup_singleton_eq in Hfile. congruence. }
    assert (Hvalue : forall var value,
              (environ smooth_world ∪ lab_settings) !! var = Some value ->
              lab_settings !! var = Some value).
    { intros var value <-. unfold smooth_world, world_of. cbn [environ].
      now rewrite (left_id ∅ (∪)). }
    apply Hvalue in Hhost, Huser, Hkey.
    vm_compute in Hhost, Huser, Hkey.
    injection Hhost as <-. injection Huser as <-. injection Hkey as <-.
    vm_compute. reflexivity.
Defined.

(** X13: When the connection or the shell fails, either script logs one
    error line, [SSH error: ...] for an [SSHException] and
    [An error occurred: ...] for any other exception, leaves with
    status 1, and has not gone further: after a failed connection no
    shell is asked for, and after a failed shell nothing is waited for
    or sent. *)
Theorem connection_failure_is_reported (env : Env) (w : World) (e : net_error) :
  let test := IseExportTest.main env in
  let export := IseExport.main env in
  (connect_result env = Some e ->
   skel (history test w)
   = [test_conn env; EvLog ERROR (handler_line (exn_of e))]
   /\ exit_status (fst (test w)) = Some 1)
  /\ (connect_result env = None -> shell_result env = Some e ->
      skel (history test w)
      = [test_conn env; EvInvokeShell; EvLog ERROR (handler_line (exn_of e))]
      /\ exit_status (fst (test w)) = Some 1)
  /\ (preflight env w = None -> connect_result env = Some e ->
      exists conn,
        skel (history export w) = [conn; EvLog ERROR (handler_line (exn_of e))]
        /\ connects (history export w) = [conn]
        /\ exit_status (fst (export w)) = Some 1)
  /\ (preflight env w = None ->
      connect_result env = None -> shell_result env = Some e ->
      exists conn,
        skel (history export w)
        = [conn; EvInvokeShell; EvLog ERROR (handler_line (exn_of e))]
        /\ connects (history export w) = [conn]
        /\ exit_status (fst (export w)) = Some 1)
  /\ handler_line (exn_of e)
     = match e with
       | SshError msg => "SSH error: " +:+ msg
       | OtherError msg => "An error occurred: " +:+ msg
       end.
Proof.
  intros test export. subst test export.
  destruct (post_run _ _ _ (test_main_reach env w))
    as (p & Hok & Hreach & Hr & Hsk).
  split; [|split; [|split; [|split]]].
  - intros Hconn. rewrite Hsk, Hr.
    destruct p; simpl in Hreach; try (destruct Hreach; congruence);
      try contradiction.
    rewrite Hconn in Hreach. injection Hreach as ->. split; reflexivity.
  - intros Hconn Hshell. rewrite Hsk, Hr.
    destruct p; simpl in Hreach; try congruence; try contradiction;
      try (destruct Hreach; congruence).
    destruct Hreach as [_ Hreach].
    rewrite Hshell in Hreach. injection Hreach as ->. split; reflexivity.
  - intros Hpre Hconn.
    destruct (export_ready_run env w Hpre)
      as (bindings & q & _ & _ & Hq & Hne & Hnu & Hqr & Hqsk).
    exists (export_conn env (environ w ∪ bindings)).
    rewrite <- connects_skel, Hqsk, Hqr.
    destruct q; simpl in Hq; try (destruct Hq; congruence);
      try (exfalso; exact (Hne _ eq_refl));
      try (exfalso; exact (Hnu _ eq_refl)).
    rewrite Hconn in Hq. injection Hq as ->. repeat split.
  - intros Hpre Hconn Hshell.
    destruct (export_ready_run env w Hpre)
      as (bindings & q & _ & _ & Hq & Hne & Hnu & Hqr & Hqsk).
    exists (export_conn env (environ w ∪ bindings)).
    rewrite <- connects_skel, Hqsk, Hqr.
    destruct q; simpl in Hq; try congruence;
      try (destruct Hq; congruence);
      try (exfalso; exact (Hne _ eq_refl));
      try (exfalso; exact (Hnu _ eq_refl)).
    destruct Hq as [_ Hq].
    rewrite Hshell in Hq. injection Hq as ->. repeat split.
  - destruct e; reflexivity.
Qed.

Lemma connection_failure_is_reported_witness :
  errors (skel (history (IseExportTest.main unreachable_env) silent_world))
  = ["SSH error: Authentication failed."]
  /\ errors (skel (history (IseExportTest.main no_shell_env) silent_world))
     = ["An error occurred: Channel closed."]
  /\ exit_status (fst (IseExport.main unreachable_env silent_world)) = Some 1.
Proof.
  destruct (connection_failure_is_reported unreachable_env silent_world
              (SshError "Authentication failed.")) as (Hc & _ & He & _).
  destruct (connection_failure_is_reported no_shell_env silent_world
              (OtherError "Channel closed.")) as (_ & Hs & _).
  destruct Hc as [-> _]; [reflexivity|].
  destruct Hs as [-> _]; [reflexivity | reflexivity |].
  destruct He as (conn & _ & _ & ->); [vm_compute; reflexivity | reflexivity |].
  repeat split.
Defined.

(** X14: A run that fails says why, once.  ise-export-test.py leaves with
    status 0 and no error line, or with status 1 and exactly one error
    line.  ise-export.py leaves through [sys.exit(1)] with exactly one
    error line, with one exception: when the environment file is there
    and cannot be read, [load_dotenv] raises outside the [try], and the
    run ends with that exception and has logged nothing. *)
Theorem one_error_line_per_failed_run (env : Env) (w : World) :
  let test := IseExportTest.main env in
  let export := IseExport.main env in
  let env_file := env_file_of env (env_name_of env) in
  ((fst (test w) = Return tt /\ errors (history test w) = [])
   \/ (fst (test w) = Raise (SystemExit 1)
       /\ exists msg, errors (history test w) = [msg]))
  /\ (is_Some (dotenv env !! env_file) \/ unreadable env !! env_file = None ->
      fst (export w) = Raise (SystemExit 1)
      /\ exists msg, errors (history export w) = [msg])
  /\ (forall msg,
        dotenv env !! env_file = None ->
        unreadable env !! env_file = Some msg ->
        fst (export w) = Raise (OtherException msg)
        /\ history export w = []).
Proof.
  intros test export env_file. subst test export env_file.
  split; [|split].
  - destruct (test_main_run env w) as (p & Hok & Hr & Hsk).
    rewrite Hr.
    by_skeleton (history (IseExportTest.main env) w) Hsk.
    each_path p Hok;
      first [ left; split; reflexivity
            | right; split; [reflexivity|]; eexists; reflexivity ].
  - intros Hthere.
    destruct (preflight env w) as [[msg|e]|] eqn:Hpre.
    + destruct (export_main_early env w _ Hpre)
        as (infos & Hr & Hhist & Hinfos & _).
      rewrite Hr, Hhist, <- errors_skel, skel_app, Hinfos.
      split; [reflexivity|]. exists msg. reflexivity.
    + apply preflight_traceback in Hpre as (Hfile & msg & Hbad & _).
      exfalso. destruct Hthere as [[bindings Hsome]|Hnone]; congruence.
    + destruct (export_ready_run env w Hpre)
        as (bindings & p & _ & Hok & _ & Hne & Hnu & Hr & Hsk).
      rewrite Hr, <- errors_skel, Hsk.
      unfold export_conn.
      generalize (default EmptyString ((environ w ∪ bindings) !! "ISE_HOST")).
      generalize (default EmptyString ((environ w ∪ bindings) !! "ISE_USER")).
      generalize (expand (userhome_of env (environ w ∪ bindings)) (passwd env)
                    (default EmptyString ((environ w ∪ bindings) !! "ISE_KEY"))).
      intros key user host.
      clear Hsk Hr Hpre.
      each_path p Hok;
        try (exfalso; exact (Hne _ eq_refl));
        try (exfalso; exact (Hnu _ eq_refl));
        (split; [reflexivity|]; eexists; reflexivity).
  - intros msg Hfile Hbad.
    assert (Hpre : preflight env w = Some (Traceback (OtherException msg))).
    { apply preflight_traceback. eauto. }
    destruct (export_main_early env w _ Hpre)
      as (infos & Hr & Hhist & _ & Hnil & _).
    rewrite Hr, Hhist, (Hnil _ eq_refl). split; reflexivity.
Qed.

Lemma one_error_line_per_failed_run_witness :
  (exists msg, errors (history (IseExport.main lab_env) silent_world) = [msg])
  /\ history (IseExport.main (locked_env "prod")) silent_world = [].
Proof.
  destruct (one_error_line_per_failed_run lab_env silent_world)
    as (_ & Hline & _).
  destruct (one_error_line_per_failed_run (locked_env "prod") silent_world)
    as (_ & _ & Hcrash).
  split.
  - apply Hline. right. vm_compute. reflexivity.
  - apply (Hcrash "[Errno 13] Permission denied: '/opt/ise/.env.prod'");
      vm_compute; reflexivity.
Defined.

(** X15: ise-export-test.py runs the upload command only at the end of a
    complete dialogue: all six waits returned [True], the channel and
    the client have been closed, and the report is on the share.  The
    run then ends with status 0 if the command returns 0, and otherwise
    logs that the upload failed and ends with status 1. *)
Theorem upload_attempt_follows_dialogue (env : Env) (w : World) :
  let test := IseExportTest.main env in
  uploads (history test w) <> [] ->
  test_file env ∈ files env
  /\ exists rest,
       skel (history test w)
       = [test_conn env; EvInvokeShell]
         ++ steps_matched (script (test_csv env))
         ++ [EvCloseChannel; EvCloseClient; test_upload env] ++ rest
       /\ ((system_status env = 0 /\ rest = []
            /\ fst (test w) = Return tt)
           \/ (system_status env <> 0
               /\ rest = [EvLog ERROR "Failed to upload file to S3"]
               /\ fst (test w) = Raise (SystemExit 1))).
Proof.
  intros test. subst test.
  destruct (test_main_run env w) as (p & Hok & Hr & Hsk).
  rewrite <- uploads_skel, Hsk, Hr. intros Hup.
  each_path p Hok; try (exfalso; apply Hup; reflexivity);
    destruct Hok as [Hfile Hstatus]; (split; [exact Hfile|]).
  - exists [EvLog ERROR "Failed to upload file to S3"].
    split; [reflexivity|]. right. auto.
  - exists []. split; [reflexivity|]. left. auto.
Qed.

Lemma upload_attempt_follows_dialogue_witness :
  test_file stocked_env ∈ files stocked_env
  /\ closes (skel (history (IseExportTest.main stocked_env) smooth_world))
     = [EvCloseChannel; EvCloseClient].
Proof.
  destruct (upload_attempt_follows_dialogue stocked_env smooth_world)
    as (Hfile & rest & Hsk & _).
  - vm_compute. discriminate.
  - split; [exact Hfile|]. vm_compute. reflexivity.
Defined.

(** ** [upload_to_s3] (ise-export.py 108-134) *)

Lemma basename_from_other (c : ascii) (s acc : string) :
  c <> "/"%char -> basename_from (String c s) acc = basename_from s acc.
Proof.
  intros Hc. destruct c as [[] [] [] [] [] [] [] []];
    try reflexivity; now destruct Hc.
Qed.

Lemma basename_from_no_slash (s acc : string) :
  no_slash s = true -> basename_from s acc = acc.
Proof.
  revert acc. induction s as [|c s IH]; intros acc; [reflexivity|].
  cbn [no_slash]. rewrite andb_true_iff, negb_true_iff.
  intros [Hc Hs]. apply Ascii.eqb_neq in Hc.
  rewrite basename_from_other by exact Hc. now apply IH.
Qed.

Lemma basename_from_join (dir name acc : string) :
  no_slash name = true ->
  basename_from (dir +:+ "/" +:+ name) acc = name.
Proof.
  intros Hname. revert acc.
  induction dir as [|c dir IH]; intros acc.
  - simpl. now apply basename_from_no_slash.
  - destruct (Ascii.eqb_spec c "/") as [->|Hc].
    + simpl. apply IH.
    + change (String c dir +:+ "/" +:+ name)
        with (String c (dir +:+ "/" +:+ name)).
      rewrite basename_from_other by exact Hc. apply IH.
Qed.

(** X16: [upload_to_s3] for a file in a directory: one upload is attempted,
    of that file, to the bucket, under the key that is the prefix
    followed by the file's name (the name alone when the prefix is
    empty).  It returns [True] when the upload succeeds; a
    [ClientError] is logged and turned into [False]; any other
    exception is not caught. *)
Theorem upload_key_is_prefix_and_name (env : Env)
    (dir name bucket prefix : string) (w : World) :
  no_slash name = true ->
  let file_path := dir +:+ "/" +:+ name in
  let m := IseExport.upload_to_s3 env file_path bucket prefix in
  uploads (history m w) = [EvUpload file_path bucket (prefix +:+ name)]
  /\ match s3_result env with
     | UploadOk => fst (m w) = Return true /\ errors (history m w) = []
     | UploadClientError msg =>
       fst (m w) = Return false
       /\ errors (history m w) = ["Error uploading to S3: " +:+ msg]
     | UploadOtherError msg =>
       fst (m w) = Raise (OtherException msg) /\ errors (history m w) = []
     end.
Proof.
  intros Hname file_path m. subst m file_path.
  unfold IseExport.upload_to_s3, basename.
  rewrite basename_from_join by exact Hname.
  assert (Hkey : (if is_empty prefix then name else prefix +:+ name)
                 = prefix +:+ name) by now destruct prefix.
  rewrite Hkey.
  unfold history, bind, logging_info, logging_error, do_event, ret, raise, emit.
  destruct (s3_result env); cbn [fst snd trace];
    rewrite <- ?app_assoc, drop_app_length; repeat split.
Qed.

Lemma upload_key_is_prefix_and_name_witness :
  uploads (history (IseExport.upload_to_s3 lab_env "/mnt/nfs/FullReport.csv"
                                           "reports" "ise-reports/")
                   silent_world)
  = [EvUpload "/mnt/nfs/FullReport.csv" "reports" "ise-reports/FullReport.csv"].
Proof.
  apply (upload_key_is_prefix_and_name lab_env "/mnt/nfs" "FullReport.csv"
           "reports" "ise-reports/" silent_world).
  vm_compute. reflexivity.
Defined.

(** ** How long a run takes *)












(** X17: A call of [wait_for_prompt] with a positive timeout comes back,
    with a result or with an exception, at most one sleep after the
    timeout has elapsed. *)
Theorem wait_for_prompt_within (prompt : string) (timeout : Z) :
  0 < timeout ->
  within (timeout + SLEEP_MS) (wait_for_prompt prompt timeout).
Proof.
  intros Hpos w.
  destruct (wait_for_prompt_every_meter SLEEP_MS prompt timeout w)
    as (n & _ & Hel & _ & _ & _ & _ & Htime); [reflexivity|].
  destruct (wait_for_prompt_every_spec SLEEP_MS prompt timeout w)
    as (evs & w1 & Hpost & _ & Hel1 & _); [reflexivity|].
  fold (wait_for_prompt prompt timeout) in *.
  destruct Hpost as (_ & _ & _ & Hr). simpl in Hr.
  assert (Hnn : 0 <= elapsed (wait_for_prompt prompt timeout) w)
    by (rewrite Hel; unfold SLEEP_MS; lia).
  destruct (fst (wait_for_prompt prompt timeout w)) as [[|]|e|];
    try (split; [discriminate | unfold SLEEP_MS; lia]); [|contradiction].
  destruct Hr as (_ & _ & Hlate & Hclock).
  split; [discriminate|]. rewrite Hel1 in *. lia.
Qed.

Lemma wait_for_prompt_within_witness :
  fst (wait_for_prompt "admin#" 250 quiet_world) <> Hang
  /\ 0 <= elapsed (wait_for_prompt "admin#" 250) quiet_world <= 250 + SLEEP_MS.
Proof.
  apply (wait_for_prompt_within "admin#" 250). lia.
Defined.






(** ** [wait_for_prompt]: how a call ends and what it logs *)

Lemma infos_app (l1 l2 : list event) : infos (l1 ++ l2) = infos l1 ++ infos l2.
Proof. apply flat_map_app. Qed.

Lemma infos_result_events (r : outcome bool) : infos (result_events r) = [].
Proof. destruct r; reflexivity. Qed.

(** The log of the loop, and how the loop ends when it raises. *)
Lemma poll_loop_shape (interval : Z) (prompt : string) (timeout start : Z)
    (fuel : nat) :
  forall (buffer : string) (w : World) (r : outcome bool) (w' : World),
    poll_loop fuel interval prompt timeout start buffer w = (r, w') ->
    r <> Hang ->
    exists evs,
      trace w' = trace w ++ evs
      /\ infos evs = map (fun c => "Received: " +:+ strip c)
                         (List.filter utf8_valid (received evs))
      /\ match r with
         | Raise _ =>
           exists before last,
             evs = before ++ [EvRecv last]
             /\ utf8_valid last = false
             /\ Forall (fun c => utf8_valid c = true) (received before)
         | _ => Forall (fun c => utf8_valid c = true) (received evs)
         end.
Proof.
  induction fuel as [|fuel IH]; intros buffer w r w' Hrun Hr.
  { inversion Hrun; subst r. now destruct Hr. }
  rewrite poll_loop_step in Hrun.
  destruct (clock w - start <? timeout).
  2:{ inversion Hrun; subst r w'. exists []. rewrite app_nil_r.
      repeat split; auto. }
  destruct (is_empty (inbuf w)) eqn:Hempty.
  - apply IH in Hrun; [|assumption].
    destruct Hrun as (evs & Htr & Hlog & Hend). simpl in Htr.
    exists (EvSleep interval :: evs). rewrite Htr, <- app_assoc.
    split; [reflexivity|]. split; [exact Hlog|].
    destruct r as [b|e|]; auto.
    destruct Hend as (before & last & -> & Hbad & Hall).
    exists (EvSleep interval :: before), last. repeat split; auto.
  - cbv zeta in Hrun. unfold recv in Hrun. rewrite Hempty in Hrun.
    cbn [snd] in Hrun.
    set (data := take 1024 (inbuf w)) in *.
    destruct (utf8_valid data) eqn:Hvalid.
    2:{ inversion Hrun; subst r w'. exists [EvRecv data].
        split; [reflexivity|]. split.
        - cbn [received List.filter]. rewrite Hvalid. reflexivity.
        - exists [], data. repeat split; auto. }
    destruct (str_in prompt (buffer +:+ data)).
    + inversion Hrun; subst r w'.
      exists [EvRecv data; EvLog INFO ("Received: " +:+ strip data)].
      split; [simpl; now rewrite <- app_assoc|]. split.
      * cbn [received List.filter]. rewrite Hvalid. reflexivity.
      * cbn [received]. repeat constructor. exact Hvalid.
    + apply IH in Hrun; [|assumption].
      destruct Hrun as (evs & Htr & Hlog & Hend). simpl in Htr.
      exists (EvRecv data :: EvLog INFO ("Received: " +:+ strip data)
              :: EvSleep interval :: evs).
      rewrite Htr, <- !app_assoc.
      split; [reflexivity|]. split.
      * cbn [received List.filter infos flat_map app]. rewrite Hvalid.
        fold (infos evs). rewrite Hlog. reflexivity.
      * destruct r as [b|e|].
        -- cbn [received]. constructor; assumption.
        -- destruct Hend as (before & last & -> & Hbad & Hall).
           exists (EvRecv data :: EvLog INFO ("Received: " +:+ strip data)
                   :: EvSleep interval :: before), last.
           repeat split; auto. cbn [received]. constructor; assumption.
        -- cbn [received]. constructor; assumption.
Qed.

(** The same for a call of the function. *)
Lemma wait_for_prompt_every_shape (interval : Z) (prompt : string)
    (timeout : Z) (w : World) :
  0 < interval ->
  let m := wait_for_prompt_every interval prompt timeout in
  infos (history m w)
  = map (fun c => "Received: " +:+ strip c)
        (List.filter utf8_valid (received (history m w)))
  /\ match fst (m w) with
     | Raise _ =>
       exists before last,
         history m w = before ++ [EvRecv last]
         /\ utf8_valid last = false
         /\ Forall (fun c => utf8_valid c = true) (received before)
     | _ => Forall (fun c => utf8_valid c = true) (received (history m w))
     end.
Proof.
  intros Hpos m. subst m.
  destruct (wait_for_prompt_every_spec interval prompt timeout w Hpos)
    as (evs & w1 & Hpost & Hhist & _).
  cbv zeta in Hpost, Hhist.
  pose proof (wait_for_prompt_every_unfold interval prompt timeout w) as Hm.
  destruct (poll_loop (poll_fuel interval timeout) interval prompt timeout
                      (clock w) EmptyString (emit (EvExpect prompt) w))
    as [r w2] eqn:Hloop.
  assert (Hfst : fst (wait_for_prompt_every interval prompt timeout w) = r).
  { rewrite Hm. destruct r; reflexivity. }
  rewrite Hfst in Hpost, Hhist |- *.
  assert (Hr : r <> Hang).
  { intros ->. now destruct Hpost as (_ & _ & _ & Hfalse). }
  destruct (poll_loop_shape _ _ _ _ _ _ _ _ _ Hloop Hr)
    as (evs' & Htr & Hlog & Hend).
  assert (evs' = evs) as ->.
  { destruct Hpost as (Htr1 & _).
    assert (Hw : trace w2 = trace (emit (EvExpect prompt) w) ++ evs).
    { revert Hhist. unfold history. rewrite Hm.
      simpl in Htr. intros Hhist.
      destruct r; simpl in Hhist; rewrite Htr, <- ?app_assoc in Hhist;
        rewrite <- ?app_assoc, drop_app_length in Hhist; simpl in Hhist;
        injection Hhist as Hhist; rewrite ?app_nil_r in Hhist;
        try apply app_inv_tail in Hhist; subst; exact Htr. }
    rewrite Htr in Hw. now apply app_inv_head in Hw. }
  rewrite Hhist.
  change (EvExpect prompt :: evs ++ result_events r)
    with ([EvExpect prompt] ++ evs ++ result_events r).
  rewrite !infos_app, !received_app, infos_result_events,
    received_result_events, !app_nil_r.
  cbn [infos flat_map received app].
  split; [exact Hlog|].
  destruct r as [b|e|]; auto.
  destruct Hend as (before & last & -> & Hbad & Hall).
  exists (EvExpect prompt :: before), last. simpl.
  rewrite app_nil_r. repeat split; auto.
Qed.




(** A chunk that is buffered when the call starts is read at once. *)
Lemma wait_for_prompt_backlog (prompt : string) (timeout : Z) (w : World) :
  0 < timeout ->
  is_empty (inbuf w) = false ->
  utf8_valid (take 1024 (inbuf w)) = true ->
  str_in prompt (take 1024 (inbuf w)) = true ->
  wait_for_prompt prompt timeout w
  = (Return true,
     mkWorld (clock w) (drop 1024 (inbuf w)) (arrivals w) (environ w)
             (trace w ++ [EvExpect prompt; EvRecv (take 1024 (inbuf w));
                          EvLog INFO ("Received: "
                                      +:+ strip (take 1024 (inbuf w)));
                          EvResult true])).
Proof.
  intros Hpos Hbuf Hvalid Hin. unfold wait_for_prompt.
  rewrite wait_for_prompt_every_unfold. unfold poll_fuel.
  rewrite Nat.add_comm. cbn [Nat.add]. rewrite poll_loop_step.
  cbn [emit clock inbuf]. rewrite Z.sub_diag.
  destruct (0 <? timeout) eqn:Hlt; [|apply Z.ltb_ge in Hlt; lia].
  rewrite Hbuf. cbv zeta. rewrite Hvalid. simpl String.append. rewrite Hin.
  unfold recv, emit. cbn [inbuf trace clock arrivals environ snd].
  rewrite Hbuf. cbn [inbuf trace clock arrivals environ snd].
  rewrite <- !app_assoc. reflexivity.
Qed.

(** C5, as amended: the buffer belongs to one call.  A call returns
    [True] only if the prompt occurs in what that call itself read, and
    its result does not depend on what the session did before, the
    channel apart.  What a call finds buffered in the channel when it
    starts, such as output of an earlier step that was not read then,
    it reads at once; if that first chunk decodes and contains the
    prompt, the call returns [True] without sleeping. *)
Theorem buffer_is_per_call (prompt : string) (timeout : Z) (w : World) :
  let m := wait_for_prompt prompt timeout in
  (fst (m w) = Return true ->
   str_in prompt (cat (received (history m w))) = true)
  /\ (forall w0, same_channel w0 w -> fst (m w0) = fst (m w))
  /\ (0 < timeout ->
      is_empty (inbuf w) = false ->
      utf8_valid (take 1024 (inbuf w)) = true ->
      str_in prompt (take 1024 (inbuf w)) = true ->
      fst (m w) = Return true
      /\ received (history m w) = [take 1024 (inbuf w)]
      /\ elapsed m w = 0).
Proof.
  intros m. split; [|split].
  - destruct (wait_for_prompt_every_spec SLEEP_MS prompt timeout w)
      as (evs & w1 & Hpost & Hhist & _); [reflexivity|].
    fold (wait_for_prompt prompt timeout) in Hpost, Hhist.
    fold m in Hpost, Hhist. intros Hr.
    rewrite Hhist, received_history. rewrite Hr in Hpost.
    now destruct Hpost as (_ & _ & _ & _ & _ & Hin & _).
  - intros w0 Hsame. now apply wait_for_prompt_same_channel.
  - intros Hpos Hbuf Hvalid Hin. subst m.
    unfold history, elapsed.
    rewrite (wait_for_prompt_backlog prompt timeout w Hpos Hbuf Hvalid Hin).
    cbn [fst snd trace clock]. rewrite drop_app_length.
    repeat split. lia.
Qed.

Lemma buffer_is_per_call_witness :
  let first := wait_for_prompt PROMPT DEFAULT_TIMEOUT_MS backlog_world in
  let second := wait_for_prompt MENU DEFAULT_TIMEOUT_MS (snd first) in
  fst first = Return true
  /\ str_in MENU (cat (received (trace (snd first)))) = false
  /\ fst second = Return true.
Proof.
  intros first second. split; [vm_compute; reflexivity|].
  split; [vm_compute; reflexivity|].
  apply (buffer_is_per_call MENU DEFAULT_TIMEOUT_MS (snd first)).
  - reflexivity.
  - vm_compute. reflexivity.
  - vm_compute. reflexivity.
  - vm_compute. reflexivity.
Defined.

(** C5, the claim as stated fails: the menu text was read by the first
    wait; the second wait, for that very text, does read from the
    channel, so that all the bytes read since the session began contain
    the menu text, and still it times out. *)
Lemma session_buffer_cex :
  let first := wait_for_prompt PROMPT DEFAULT_TIMEOUT_MS stale_menu_world in
  let second := wait_for_prompt MENU DEFAULT_TIMEOUT_MS (snd first) in
  fst first = Return true
  /\ received (trace (snd first)) = [PROMPT +:+ " " +:+ MENU]
  /\ received (trace (snd second)) = [PROMPT +:+ " " +:+ MENU; "x"]
  /\ str_in MENU (cat (received (trace (snd second)))) = true
  /\ fst second = Return false.
Proof. vm_compute. repeat split. Qed.

(** C6, as amended: a call ends in one of three ways and yields
    nothing but that.  It returns [True]: the prompt then occurs in the
    chunks the call read, all of which decode, and no more than the
    timeout has elapsed.  It returns [False]: the timeout then has
    elapsed, the chunks read decode and the prompt does not occur in
    them, or nothing was read.  It raises [UnicodeDecodeError]: the
    last chunk read then does not decode, and those before it do.  The
    text is not returned: each chunk that decodes is logged, as
    [Received: ] followed by the chunk without the white space around
    it, and a chunk that does not decode is not logged. *)
Theorem wait_for_prompt_result (prompt : string) (timeout : Z) (w : World) :
  let m := wait_for_prompt prompt timeout in
  let chunks := received (history m w) in
  ((fst (m w) = Return true
    /\ str_in prompt (cat chunks) = true
    /\ Forall (fun c => utf8_valid c = true) chunks
    /\ elapsed m w <= timeout)
   \/ (fst (m w) = Return false
       /\ timeout <= elapsed m w
       /\ Forall (fun c => utf8_valid c = true) chunks
       /\ (chunks = [] \/ str_in prompt (cat chunks) = false))
   \/ (fst (m w) = Raise UnicodeDecodeError
       /\ exists init last,
            chunks = init ++ [last]
            /\ utf8_valid last = false
            /\ Forall (fun c => utf8_valid c = true) init))
  /\ infos (history m w)
     = map (fun c => "Received: " +:+ strip c) (List.filter utf8_valid chunks).
Proof.
  intros m chunks. subst chunks.
  destruct (wait_for_prompt_every_shape SLEEP_MS prompt timeout w)
    as (Hlog & _); [reflexivity|].
  fold (wait_for_prompt prompt timeout) in Hlog. fold m in Hlog.
  split; [|exact Hlog].
  destruct (wait_for_prompt_every_spec SLEEP_MS prompt timeout w)
    as (evs & w1 & Hpost & Hhist & Hel & _); [reflexivity|].
  fold (wait_for_prompt prompt timeout) in Hpost, Hhist, Hel.
  fold m in Hpost, Hhist, Hel.
  rewrite Hhist, Hel, received_history.
  destruct Hpost as (_ & _ & _ & Hr). simpl in Hr.
  destruct (fst (m w)) as [[|]|e|]; try contradiction.
  - left. destruct Hr as (Hall & _ & Hin & _ & Hearly).
    repeat split; auto. lia.
  - right; left. destruct Hr as (Hall & Hnot & Hlate & _). auto.
  - right; right. destruct Hr as (-> & chunks & last & -> & Hbad & Hall & _).
    split; [reflexivity|]. exists chunks, last. auto.
Qed.

(** C6, the claim as stated fails: two calls with the same result that
    took different times and read different text. *)
Lemma step_result_cex :
  let m := wait_for_prompt "#" DEFAULT_TIMEOUT_MS in
  fst (m ready_world) = fst (m slow_world)
  /\ elapsed m ready_world <> elapsed m slow_world
  /\ cat (received (history m ready_world))
     <> cat (received (history m slow_world)).
Proof. vm_compute. repeat split; discriminate. Qed.

(** ** Closing the connection, and the order of the dialogue *)


(** The dialogue followed by the two close calls, as both scripts have
    them, in any namespace. *)
Lemma dialogue_then_close (G : gmap string pyobj) (w : World) :
  post (drive_menu G ;; close_connection) w (fun r sk _ =>
    exists e, menu_ending_ok G e
              /\ r = menu_outcome e
              /\ sk = menu_skeleton (csv_of G) e
                      ++ match e with
                         | Matched => [EvCloseChannel; EvCloseClient]
                         | _ => []
                         end).
Proof.
  apply post_bind.
  eapply post_conseq; [apply drive_menu_paths|].
  intros r sk w' (e & Hok & -> & ->).
  destruct e as [|k|k|]; cbn [menu_outcome]; cbv beta iota.
  - unfold close_connection. wp. exists Matched. repeat split; auto.
  - exists (TimedOut k). rewrite app_nil_r. auto.
  - exists (Garbled k). rewrite app_nil_r. auto.
  - exists Unbound. rewrite app_nil_r. auto.
Qed.

(** C4, the claim as stated fails: the shell is open, the first wait
    times out, and the run ends with status 1 without closing the
    channel or the client. *)
Lemma closed_on_every_path_cex :
  let run := IseExportTest.main lab_env in
  skel (history run silent_world)
  = [ EvConnect "1.2.3.4" "iseadmin" "/root/.ssh/ise"; EvInvokeShell;
      EvExpect PROMPT; EvResult false;
      EvLog ERROR "Timeout waiting for initial prompt" ]
  /\ closes (history run silent_world) = []
  /\ exit_status (fst (run silent_world)) = Some 1.
Proof. vm_compute. repeat split. Qed.

(** C4, as amended: the channel and then the client are closed, once
    each, after a dialogue in which all six waits returned [True], and
    in no other case.  For the dialogue with its two close calls, as
    both scripts have it: they are reached exactly when the six waits
    returned [True].  For a whole run of either script: on a run in
    which not all six waits returned [True], whether the connection or
    the shell failed, a wait timed out or an exception was raised,
    nothing is closed and the status is 1; on a run of
    ise-export-test.py in which they all did, both are closed. *)
Theorem closed_only_after_dialogue (env : Env) (w : World) :
  let test := IseExportTest.main env in
  let export := IseExport.main env in
  (results (history test w) = List.repeat true 6 ->
   closes (history test w) = [EvCloseChannel; EvCloseClient])
  /\ (results (history test w) <> List.repeat true 6 ->
      closes (history test w) = [] /\ exit_status (fst (test w)) = Some 1)
  /\ (results (history export w) <> List.repeat true 6 ->
      closes (history export w) = [] /\ exit_status (fst (export w)) = Some 1)
  /\ (forall G,
        let dialogue := drive_menu G ;; close_connection in
        (results (history dialogue w) = List.repeat true 6 ->
         fst (dialogue w) = Return tt
         /\ closes (history dialogue w) = [EvCloseChannel; EvCloseClient])
        /\ (results (history dialogue w) <> List.repeat true 6 ->
            fst (dialogue w) <> Return tt
            /\ closes (history dialogue w) = [])).
Proof.
  intros test export. subst test export.
  destruct (test_main_run env w) as (p & Hok & Hr & Hsk).
  destruct (export_main_run env w) as (q & host & user & key & Hqok & Hqr & Hqsk).
  rewrite Hr, Hqr.
  by_skeleton (history (IseExportTest.main env) w) Hsk.
  by_skeleton (history (IseExport.main env) w) Hqsk.
  split; [|split; [|split]].
  - intros Hall. each_path p Hok; vm_compute in Hall; try discriminate Hall;
      vm_compute; reflexivity.
  - intros Hnot.
    each_path p Hok;
      try (exfalso; apply Hnot; vm_compute; reflexivity);
      split; vm_compute; reflexivity.
  - intros _. split; [each_path q Hqok; vm_compute; reflexivity|].
    each_path q Hqok; reflexivity.
  - intros G dialogue. subst dialogue.
    destruct (post_run _ _ _ (dialogue_then_close G w))
      as (e & Hok' & Hr' & Hsk').
    rewrite Hr'.
    by_skeleton (history (drive_menu G;; close_connection) w) Hsk'.
    split.
    + intros Hall.
      destruct e as [|k|k|]; cbn [menu_ending_ok] in Hok';
        [ | destruct Hok' as [Hk _]; six k Hk
          | destruct Hok' as [Hk _]; six k Hk | ];
        vm_compute in Hall; try discriminate Hall.
      split; [reflexivity|]. vm_compute. reflexivity.
    + intros Hnot.
      destruct e as [|k|k|]; cbn [menu_ending_ok] in Hok';
        [ | destruct Hok' as [Hk _]; six k Hk
          | destruct Hok' as [Hk _]; six k Hk | ];
        try (exfalso; apply Hnot; vm_compute; reflexivity);
        (split; [discriminate | vm_compute; reflexivity]).
Qed.

Lemma closed_only_after_dialogue_witness :
  closes (history (IseExportTest.main stocked_env) smooth_world)
  = [EvCloseChannel; EvCloseClient]
  /\ closes (history (IseExportTest.main lab_env) stalled_world) = []
  /\ closes (history (drive_menu (IseExportTest.globals lab_env)
                      ;; close_connection) smooth_world)
     = [EvCloseChannel; EvCloseClient].
Proof.
  split; [|split].
  - apply (proj1 (closed_only_after_dialogue stocked_env smooth_world)).
    vm_compute. reflexivity.
  - apply (proj1 (proj2 (closed_only_after_dialogue lab_env stalled_world))).
    vm_compute. discriminate.
  - apply (proj1 (proj2 (proj2 (proj2
             (closed_only_after_dialogue lab_env smooth_world)))
             (IseExportTest.globals lab_env))).
    vm_compute. reflexivity.
Defined.


